(** * LexiLoop AI service: content validator and story cache

    A shallow embedding of the quality-validation engine
    ([src/content_validator/validator.py]), the cache-key builder and the
    story cache of [src/story_generator/generator.py], and the request
    handler of [main.py], with the properties of the specification stated
    and settled against them.

    Modelling conventions.
    - A Python [str] is a [string]; the model is exact on ASCII text
      (code points below 128), where [lower], [isupper], [strip],
      [split], [\b] and [\w] have the ASCII meaning given below.
    - A Python [float] is an exact rational [Q]; [int / int] is the exact
      quotient and raises [ZeroDivisionError] on a zero divisor.
    - A Python exception is the [Raise] branch of [result]; [try/except]
      is a [match] on it.
    - An issue tag is a constructor of [issue]; the coverage tag carries
      the value that the f-string prints. *)

From Stdlib Require Import ZArith QArith Qminmax Qabs Lqa Lia List Bool Ascii String.
From Stdlib Require Import DecimalString DecimalZ DecimalPos.
From stdpp Require Import base option gmap strings sorting list.

Local Open Scope string_scope.

(** ** Exceptions *)

Inductive exn : Type :=
| ZeroDivisionError
| ProviderError (msg : string)
| GenerationFailed (msg : string).

Inductive result (A : Type) : Type :=
| Ok (a : A)
| Raise (e : exn).
Arguments Ok {A} a.
Arguments Raise {A} e.

#[global] Instance result_ret : MRet result := fun _ a => Ok a.
#[global] Instance result_bind : MBind result := fun _ _ f m =>
  match m with
  | Ok a => f a
  | Raise e => Raise e
  end.

(** [a / b] on Python integers. *)
Definition py_div (a b : nat) : result Q :=
  match b with
  | O => Raise ZeroDivisionError
  | S _ => Ok (Z.of_nat a # Pos.of_nat b)
  end.

(** ** Python string primitives (ASCII) *)

Module PyStr.

Definition code (c : ascii) : nat := nat_of_ascii c.

Definition between (lo hi : nat) (c : ascii) : bool :=
  (lo <=? code c)%nat && (code c <=? hi)%nat.

(** [str.isspace] on one character: TAB..CR, FS..US and the space. *)
Definition isspace (c : ascii) : bool := between 9 13 c || between 28 32 c.

Definition isupper (c : ascii) : bool := between 65 90 c.
Definition islower (c : ascii) : bool := between 97 122 c.
Definition isdigit (c : ascii) : bool := between 48 57 c.

(** The class [[a-zA-Z]]. *)
Definition isletter (c : ascii) : bool := isupper c || islower c.

(** The class [\w]. *)
Definition isword (c : ascii) : bool :=
  isletter c || isdigit c || Ascii.eqb c "_".

Definition lower_char (c : ascii) : ascii :=
  if isupper c then ascii_of_nat (code c + 32) else c.

(** [s.lower()] *)
Fixpoint lower (s : string) : string :=
  match s with
  | "" => ""
  | String c s' => String (lower_char c) (lower s')
  end.

(** Truth value of a string: non-empty. *)
Definition truthy (s : string) : bool :=
  match s with
  | "" => false
  | String _ _ => true
  end.

Fixpoint lstrip (s : string) : string :=
  match s with
  | "" => ""
  | String c s' => if isspace c then lstrip s' else s
  end.

Fixpoint rstrip (s : string) : string :=
  match s with
  | "" => ""
  | String c s' =>
      let r := rstrip s' in
      if isspace c && negb (truthy r) then "" else String c r
  end.

(** [s.strip()] *)
Definition strip (s : string) : string := rstrip (lstrip s).

(** [s.split()]: the maximal runs of non-space characters. *)
Fixpoint split (s : string) : list string :=
  match s with
  | "" => []
  | String c s' =>
      if isspace c then split s'
      else match s' with
           | "" => [String c ""]
           | String c' _ =>
               if isspace c' then String c "" :: split s'
               else match split s' with
                    | w :: ws => String c w :: ws
                    | [] => [String c ""]
                    end
           end
  end.

(** [needle in hay] *)
Fixpoint contains (needle hay : string) : bool :=
  String.prefix needle hay ||
  match hay with
  | "" => false
  | String _ hay' => contains needle hay'
  end.

(** [s.endswith(suffix)] *)
Fixpoint endswith (suffix s : string) : bool :=
  String.eqb s suffix ||
  match s with
  | "" => false
  | String _ s' => endswith suffix s'
  end.

(** [c in s] for a character [c]. *)
Definition char_in (c : ascii) (s : string) : bool :=
  existsb (Ascii.eqb c) (list_ascii_of_string s).

(** [sep.join(l)] *)
Fixpoint join (sep : string) (l : list string) : string :=
  match l with
  | [] => ""
  | [x] => x
  | x :: l' => x ++ sep ++ join sep l'
  end.

End PyStr.

(** ** The four regular expressions of the validator *)

Module Re.

(** The class [[.!?]]. *)
Definition ispunct (c : ascii) : bool :=
  Ascii.eqb c "." || Ascii.eqb c "!" || Ascii.eqb c "?".

(** [re.split(r'[.!?]+', s)], reading [s] from the left; [in_sep] says
    that the previous character belonged to a separator run.  The
    result always has one fragment more than there are separator runs. *)
Fixpoint split_from (in_sep : bool) (s : string) : list string :=
  match s with
  | "" => [""]
  | String c s' =>
      if ispunct c then
        if in_sep then split_from true s' else "" :: split_from true s'
      else
        match split_from false s' with
        | frag :: rest => String c frag :: rest
        | [] => [String c ""]
        end
  end.

Definition split_punct (s : string) : list string := split_from false s.

(** [re.sub(r'(ed|es|s)$', '', w)] on a string without a final newline:
    the leftmost position whose remainder is one of the alternatives. *)
Fixpoint sub_suffix (w : string) : string :=
  match w with
  | "" => ""
  | String c w' =>
      if String.eqb w "ed" || String.eqb w "es" || String.eqb w "s"
      then "" else String c (sub_suffix w')
  end.

(** [\b] between two neighbours; [None] is the edge of the string. *)
Definition isword_opt (c : option ascii) : bool :=
  match c with
  | Some c => PyStr.isword c
  | None => false
  end.

Definition boundary (prev next : option ascii) : bool :=
  xorb (isword_opt prev) (isword_opt next).

Definition head (s : string) : option ascii :=
  match s with
  | "" => None
  | String c _ => Some c
  end.

(** The literal [w] then [\b], matched at the front of [s]; [prev] is
    the character before the current position. *)
Fixpoint match_literal (prev : option ascii) (w s : string) : bool :=
  match w with
  | "" => boundary prev (head s)
  | String a w' =>
      match s with
      | "" => false
      | String c s' => Ascii.eqb a c && match_literal (Some c) w' s'
      end
  end.

Definition match_word_here (prev : option ascii) (w s : string) : bool :=
  boundary prev (head s) && match_literal prev w s.

(** [re.search(r'\b' + re.escape(w) + r'\b', s)] finds a match. *)
Fixpoint search_word_from (prev : option ascii) (w s : string) : bool :=
  match_word_here prev w s ||
  match s with
  | "" => false
  | String c s' => search_word_from (Some c) w s'
  end.

Definition search_word (w s : string) : bool := search_word_from None w s.

(** [re.search(r'[.!?][a-zA-Z]', s)] finds a match. *)
Fixpoint search_punct_letter (s : string) : bool :=
  match s with
  | String c ((String c' _) as s') =>
      (ispunct c && PyStr.isletter c') || search_punct_letter s'
  | _ => false
  end.

End Re.

(** ** Comparisons on scores *)

(** [a < b] on floats, as a boolean. *)
Definition Qltb (a b : Q) : bool := negb (Qle_bool b a).

(** ** The content validator ([content_validator/validator.py]) *)

Module Validator.

Inductive issue : Type :=
| ContentTooShort
| ContentTooLong
| LowVocabularyCoverage (coverage : Q)
| PoorReadability
| PoorCoherence
| GrammarIssuesDetected.

Record ValidationResult : Type := {
  is_valid : bool;
  quality_score : Q;
  issues : list issue;
  vocabulary_coverage : Q;
  readability_score : Q;
  coherence_score : Q
}.

Definition min_quality_threshold : Q := 0.7%Q.

Definition common_words : gset string :=
  list_to_set
    ["the"; "be"; "to"; "of"; "and"; "a"; "in"; "that"; "have";
     "i"; "it"; "for"; "not"; "on"; "with"; "he"; "as"; "you";
     "do"; "at"; "this"; "but"; "his"; "by"; "from"; "they";
     "she"; "her"; "or"; "an"; "will"; "my"; "one"; "all";
     "would"; "there"; "their"; "what"; "so"; "up"; "out";
     "if"; "about"; "who"; "get"; "which"; "go"; "me"; "when";
     "make"; "can"; "like"; "time"; "no"; "just"; "him"; "know";
     "take"; "people"; "into"; "year"; "your"; "good"; "some";
     "could"; "them"; "see"; "other"; "than"; "then"; "now";
     "look"; "only"; "come"; "its"; "over"; "think"; "also";
     "back"; "after"; "use"; "two"; "how"; "our"; "work";
     "first"; "well"; "way"; "even"; "new"; "want"; "because";
     "any"; "these"; "give"; "day"; "most"; "us"].

(** [s.strip()] is non-empty. *)
Definition nonblank (s : string) : bool := PyStr.truthy (PyStr.strip s).

(** [[s.strip() for s in re.split(r'[.!?]+', content) if s.strip()]] *)
Definition sentences_of (content : string) : list string :=
  List.map PyStr.strip (List.filter nonblank (Re.split_punct content)).

(** *** [_check_vocabulary_coverage] *)

Definition coverage_step (content_lower : string) (words_found : nat) (word : string) : nat :=
  if Re.search_word (PyStr.lower word) content_lower
  then S words_found else words_found.

Definition _check_vocabulary_coverage (content : string) (vocabulary : list string)
  : result Q :=
  match vocabulary with
  | [] => Ok 1%Q
  | _ :: _ =>
      let content_lower := PyStr.lower content in
      let words_found := fold_left (coverage_step content_lower) vocabulary 0%nat in
      py_div words_found (length vocabulary)
  end.

(** *** [_count_syllables] *)

Definition vowels : string := "aeiouy".

(** One turn of the loop over the characters: the state is
    [(syllable_count, prev_was_vowel)]. *)
Definition syllable_step (st : nat * bool) (char : ascii) : nat * bool :=
  let is_vowel := PyStr.char_in char vowels in
  (if is_vowel && negb (snd st) then S (fst st) else fst st, is_vowel).

Definition _count_syllables (word : string) : nat :=
  let word := PyStr.strip (PyStr.lower word) in
  if negb (PyStr.truthy word) then 0%nat
  else
    let word := Re.sub_suffix word in
    let syllable_count :=
      fst (fold_left syllable_step (list_ascii_of_string word) (0%nat, false)) in
    let syllable_count :=
      if PyStr.endswith "e" word && (1 <? syllable_count)%nat
      then (syllable_count - 1)%nat else syllable_count in
    Nat.max 1 syllable_count.

(** *** [_check_readability] *)

(** The inner loop: the state is [(total_syllables, complex_words)]. *)
Definition word_step (st : nat * nat) (word : string) : nat * nat :=
  let syllables := _count_syllables word in
  ((fst st + syllables)%nat,
   if (2 <? syllables)%nat && negb (bool_decide (PyStr.lower word ∈ common_words))
   then S (snd st) else snd st).

(** The outer loop: the state is
    [(total_words, (total_syllables, complex_words))]. *)
Definition sentence_step (st : nat * (nat * nat)) (sentence : string)
  : nat * (nat * nat) :=
  let words := PyStr.split sentence in
  ((fst st + length words)%nat, fold_left word_step words (snd st)).

Definition _check_readability (content : string) : result Q :=
  let sentences := sentences_of content in
  match sentences with
  | [] => Ok 0%Q
  | _ :: _ =>
      let totals := fold_left sentence_step sentences (0%nat, (0%nat, 0%nat)) in
      let total_words := fst totals in
      let total_syllables := fst (snd totals) in
      let complex_words := snd (snd totals) in
      if (total_words =? 0)%nat then Ok 0%Q
      else
        avg_sentence_length ← py_div total_words (length sentences);
        avg_syllables ← py_div total_syllables total_words;
        complexity_ratio ← py_div complex_words total_words;
        let sentence_score := Qmax 0 (1 - Qabs (avg_sentence_length - 15) / 15) in
        let syllable_score := Qmax 0 (1 - Qabs (avg_syllables - 2) / 2) in
        let complexity_score := Qmax 0 (1 - complexity_ratio) in
        let readability_score :=
          ((sentence_score + syllable_score + complexity_score) / 3)%Q in
        Ok (Qmin 1 readability_score)
  end.

(** *** [_check_coherence] *)

Definition transitions : list string :=
  ["however"; "therefore"; "meanwhile"; "then"; "next"; "finally";
   "first"; "second"; "later"; "after"; "before"].
Definition pronouns : list string :=
  ["he"; "she"; "it"; "they"; "this"; "that"; "these"; "those"].
Definition connectors : list string :=
  ["and"; "but"; "or"; "so"; "because"; "since"; "although"; "while"].

(** [sum(1 for word in indicators if word in content_lower)] *)
Definition indicator_count (indicators : list string) (content_lower : string) : nat :=
  fold_left (fun n word => if PyStr.contains word content_lower then S n else n)
            indicators 0%nat.

Definition _check_coherence (content : string) : Q :=
  let sentences := sentences_of content in
  if (length sentences <? 3)%nat then 0.3%Q
  else
    let content_lower := PyStr.lower content in
    let coherence_score := 0.5%Q in
    let transition_count := indicator_count transitions content_lower in
    let coherence_score :=
      (coherence_score + Qmin 0.2 (inject_Z (Z.of_nat transition_count) * 0.05))%Q in
    let pronoun_count := indicator_count pronouns content_lower in
    let coherence_score :=
      (coherence_score + Qmin 0.15 (inject_Z (Z.of_nat pronoun_count) * 0.02))%Q in
    let connector_count := indicator_count connectors content_lower in
    let coherence_score :=
      (coherence_score + Qmin 0.15 (inject_Z (Z.of_nat connector_count) * 0.03))%Q in
    Qmin 1 coherence_score.

(** *** [_check_basic_grammar] *)

(** [sentence and sentence[0].isupper()] *)
Definition starts_upper (sentence : string) : bool :=
  match sentence with
  | "" => false
  | String c _ => PyStr.isupper c
  end.

Definition capital_step (capitalized_sentences : nat) (sentence : string) : nat :=
  let sentence := PyStr.strip sentence in
  if starts_upper sentence then S capitalized_sentences else capitalized_sentences.

Definition _check_basic_grammar (content : string) : result Q :=
  let grammar_score := 1%Q in
  let sentences := Re.split_punct content in
  let capitalized_sentences := fold_left capital_step sentences 0%nat in
  grammar_score ←
    match sentences with
    | [] => Ok grammar_score
    | _ :: _ =>
        capitalization_ratio ←
          py_div capitalized_sentences (length (List.filter nonblank sentences));
        Ok (grammar_score * capitalization_ratio)%Q
    end;
  let has_periods := PyStr.contains "." content in
  let has_proper_spacing := negb (Re.search_punct_letter content) in
  let grammar_score :=
    if negb has_periods then (grammar_score * 0.8)%Q else grammar_score in
  let grammar_score :=
    if negb has_proper_spacing then (grammar_score * 0.9)%Q else grammar_score in
  let words := PyStr.split content in
  grammar_score ←
    match words with
    | [] => Ok grammar_score
    | _ :: _ =>
        let sentences_list := Re.split_punct content in
        match sentences_list with
        | [] => Ok grammar_score
        | _ :: _ =>
            avg_sentence_length ←
              py_div (length words) (length (List.filter nonblank sentences_list));
            Ok (if Qltb 30 avg_sentence_length
                then (grammar_score * 0.8)%Q else grammar_score)
        end
    end;
  Ok (Qmax 0 grammar_score).

(** *** [_comprehensive_validation] and [validate] *)

(** [issues.append(tag)] under a condition. *)
Definition append_if (cond : bool) (tag : issue) (issues : list issue) : list issue :=
  if cond then issues ++ [tag] else issues.

Definition _comprehensive_validation (content : string) (vocabulary : list string)
  : result ValidationResult :=
  let issues := [] in
  let issues :=
    append_if (String.length (PyStr.strip content) <? 100)%nat ContentTooShort issues in
  let issues :=
    append_if (1500 <? String.length (PyStr.strip content))%nat ContentTooLong issues in
  vocab_coverage ← _check_vocabulary_coverage content vocabulary;
  let issues :=
    append_if (Qltb vocab_coverage 0.8) (LowVocabularyCoverage vocab_coverage) issues in
  readability_score ← _check_readability content;
  let issues := append_if (Qltb readability_score 0.5) PoorReadability issues in
  let coherence_score := _check_coherence content in
  let issues := append_if (Qltb coherence_score 0.6) PoorCoherence issues in
  grammar_score ← _check_basic_grammar content;
  let issues := append_if (Qltb grammar_score 0.7) GrammarIssuesDetected issues in
  let quality_score :=
    (vocab_coverage * 0.3 + readability_score * 0.25 +
     coherence_score * 0.25 + grammar_score * 0.2)%Q in
  let is_valid :=
    Qle_bool min_quality_threshold quality_score && (length issues <=? 2)%nat in
  Ok {| is_valid := is_valid;
        quality_score := quality_score;
        issues := issues;
        vocabulary_coverage := vocab_coverage;
        readability_score := readability_score;
        coherence_score := coherence_score |}.

(** [validate]: the [try] around the whole validation. *)
Definition validate (content : string) (vocabulary : list string) : bool * Q :=
  match _comprehensive_validation content vocabulary with
  | Ok validation_result =>
      (is_valid validation_result, quality_score validation_result)
  | Raise _ => (false, 0%Q)
  end.

End Validator.

(** ** The example of the specification *)

Definition example_text : string :=
  "The brave explorer decided to embark on an exciting adventure into the mysterious forest. She wanted to discover ancient secrets hidden deep within the woods. As she walked through the dense trees, every sound made her heart race with anticipation. The adventure was challenging, but she was determined to explore every corner and discover the truth about the mysterious legends she had heard.".
Definition example_vocabulary : list string :=
  ["adventure"; "mysterious"; "explore"; "discover"].

(** ** MD5 ([hashlib.md5], RFC 1321) on 32-bit words held in [Z] *)

Module MD5.

Local Open Scope Z_scope.

Definition mask32 (x : Z) : Z := x mod 2 ^ 32.

Definition rotl (x c : Z) : Z :=
  mask32 (Z.lor (Z.shiftl x c) (Z.shiftr x (32 - c))).

Definition not32 (x : Z) : Z := Z.lxor x 0xFFFFFFFF.

Definition shifts : list Z :=
  [7; 12; 17; 22; 7; 12; 17; 22; 7; 12; 17; 22; 7; 12; 17; 22;
   5; 9; 14; 20; 5; 9; 14; 20; 5; 9; 14; 20; 5; 9; 14; 20;
   4; 11; 16; 23; 4; 11; 16; 23; 4; 11; 16; 23; 4; 11; 16; 23;
   6; 10; 15; 21; 6; 10; 15; 21; 6; 10; 15; 21; 6; 10; 15; 21].

Definition sines : list Z :=
  [0xd76aa478; 0xe8c7b756; 0x242070db; 0xc1bdceee;
   0xf57c0faf; 0x4787c62a; 0xa8304613; 0xfd469501;
   0x698098d8; 0x8b44f7af; 0xffff5bb1; 0x895cd7be;
   0x6b901122; 0xfd987193; 0xa679438e; 0x49b40821;
   0xf61e2562; 0xc040b340; 0x265e5a51; 0xe9b6c7aa;
   0xd62f105d; 0x02441453; 0xd8a1e681; 0xe7d3fbc8;
   0x21e1cde6; 0xc33707d6; 0xf4d50d87; 0x455a14ed;
   0xa9e3e905; 0xfcefa3f8; 0x676f02d9; 0x8d2a4c8a;
   0xfffa3942; 0x8771f681; 0x6d9d6122; 0xfde5380c;
   0xa4beea44; 0x4bdecfa9; 0xf6bb4b60; 0xbebfbc70;
   0x289b7ec6; 0xeaa127fa; 0xd4ef3085; 0x04881d05;
   0xd9d4d039; 0xe6db99e5; 0x1fa27cf8; 0xc4ac5665;
   0xf4292244; 0x432aff97; 0xab9423a7; 0xfc93a039;
   0x655b59c3; 0x8f0ccc92; 0xffeff47d; 0x85845dd1;
   0x6fa87e4f; 0xfe2ce6e0; 0xa3014314; 0x4e0811a1;
   0xf7537e82; 0xbd3af235; 0x2ad7d2bb; 0xeb86d391].

Record state : Type := { sa : Z; sb : Z; sc : Z; sd : Z }.

Definition init : state :=
  {| sa := 0x67452301; sb := 0xefcdab89; sc := 0x98badcfe; sd := 0x10325476 |}.

(** The padded message: a one bit, zeros up to 56 modulo 64, and the
    bit length as 8 little-endian bytes. *)
Definition le_bytes (count : nat) (x : Z) : list Z :=
  List.map (fun i => Z.shiftr x (8 * Z.of_nat i) mod 256) (seq 0 count).

Definition pad (msg : list Z) : list Z :=
  let len := Z.of_nat (length msg) in
  msg ++ [0x80] ++ repeat 0 (Z.to_nat ((55 - len) mod 64))
      ++ le_bytes 8 ((8 * len) mod 2 ^ 64).

Definition word_of (bytes : list Z) : Z :=
  fold_right (fun b acc => b + 256 * acc) 0 bytes.

Fixpoint words_of (count : nat) (bytes : list Z) : list Z :=
  match count with
  | O => []
  | S count' => word_of (firstn 4 bytes) :: words_of count' (skipn 4 bytes)
  end.

(** One of the 64 operations on a block [M]. *)
Definition round (M : list Z) (st : state) (i : nat) : state :=
  let A := sa st in let B := sb st in let C := sc st in let D := sd st in
  let '(F, g) :=
    if (i <? 16)%nat then (Z.lor (Z.land B C) (Z.land (not32 B) D), i)
    else if (i <? 32)%nat then
      (Z.lor (Z.land D B) (Z.land (not32 D) C), ((5 * i + 1) mod 16)%nat)
    else if (i <? 48)%nat then (Z.lxor (Z.lxor B C) D, ((3 * i + 5) mod 16)%nat)
    else (Z.lxor C (Z.lor B (not32 D)), ((7 * i) mod 16)%nat) in
  let F := mask32 (F + A + nth i sines 0 + nth g M 0) in
  {| sa := D; sd := C; sc := B; sb := mask32 (B + rotl F (nth i shifts 0)) |}.

Definition block (st : state) (chunk : list Z) : state :=
  let M := words_of 16 chunk in
  let st' := fold_left (round M) (seq 0 64) st in
  {| sa := mask32 (sa st + sa st'); sb := mask32 (sb st + sb st');
     sc := mask32 (sc st + sc st'); sd := mask32 (sd st + sd st') |}.

Fixpoint blocks (count : nat) (st : state) (bytes : list Z) : state :=
  match count with
  | O => st
  | S count' => blocks count' (block st (firstn 64 bytes)) (skipn 64 bytes)
  end.

Definition final_state (msg : list Z) : state :=
  let padded := pad msg in
  blocks (length padded / 64) init padded.

(** The 16 bytes of the digest, read as one little-endian number. *)
Definition digest_int (msg : list Z) : Z :=
  let st := final_state msg in
  sa st + 2 ^ 32 * sb st + 2 ^ 64 * sc st + 2 ^ 96 * sd st.

Definition hex_digit (d : Z) : ascii :=
  if d <? 10 then ascii_of_nat (48 + Z.to_nat d)
  else ascii_of_nat (87 + Z.to_nat d).

Definition hex_byte (b : Z) : string :=
  String (hex_digit (b / 16)) (String (hex_digit (b mod 16)) "").

Definition hex_of_digest (n : Z) : string :=
  String.concat "" (List.map hex_byte (le_bytes 16 n)).

(** [hashlib.md5(msg).hexdigest()] *)
Definition hexdigest (msg : list Z) : string := hex_of_digest (digest_int msg).

End MD5.

(** [s.encode()] on ASCII text. *)
Definition encode (s : string) : list Z :=
  List.map (fun c => Z.of_nat (nat_of_ascii c)) (list_ascii_of_string s).


(** ** Python text of values: [str(int)], [repr(str)], [str(list)] *)

Module PyRepr.

Definition squote : ascii := "'"%char.
Definition dquote : ascii := ascii_of_nat 34.
Definition backslash : ascii := ascii_of_nat 92.

(** [str(n)] for an integer. *)
Definition str_of_int (n : Z) : string :=
  DecimalString.NilZero.string_of_int (Z.to_int n).

Definition hex2 (n : nat) : string :=
  MD5.hex_byte (Z.of_nat n).

(** One character inside [repr(s)], with [quote] the chosen delimiter. *)
Definition repr_char (quote c : ascii) : string :=
  if Ascii.eqb c quote || Ascii.eqb c backslash then String backslash (String c "")
  else if (PyStr.code c =? 9)%nat then String backslash "t"
  else if (PyStr.code c =? 10)%nat then String backslash "n"
  else if (PyStr.code c =? 13)%nat then String backslash "r"
  else if (PyStr.code c <? 32)%nat || (127 <=? PyStr.code c)%nat
       then String backslash ("x" ++ hex2 (PyStr.code c))
  else String c "".

(** [repr(s)]: double quotes only when [s] has a single quote and no
    double quote. *)
Definition repr_str (s : string) : string :=
  let quote :=
    if PyStr.char_in squote s && negb (PyStr.char_in dquote s)
    then dquote else squote in
  String quote
    (String.concat "" (List.map (repr_char quote) (list_ascii_of_string s))
     ++ String quote "").

(** [str(l)] for a list of strings. *)
Definition str_of_list (l : list string) : string :=
  "[" ++ PyStr.join ", " (List.map repr_str l) ++ "]".

End PyRepr.

(** ** The story generator ([story_generator/generator.py]) *)

(** [sorted(l)] on strings: the order of Python strings, by code point
    and lexicographic, is [String.le]. *)
Definition sorted (l : list string) : list string := merge_sort String.le l.

Module Generator.

Record Story : Type := {
  content : string;
  vocabulary_used : list string;
  word_count : nat;
  difficulty : Z;
  story_type : string;
  cache_key : string;
  created_at : Z
}.

(** An entry of the store: the serialised story and its time to live. *)
Record CacheEntry : Type := {
  payload : Story;
  expire_hours : Z
}.

(** The effects of a request, in the order they happen. *)
Inductive event : Type :=
| CacheRead (key : string) (hit : bool)
| ProviderCall (prompt : string)
| CacheWrite (key : string) (story : Story)
| Validation (text : string) (accepted : bool).

(** The collaborators outside the repository: the text provider, the
    speech provider and the clock. *)
Record Env : Type := {
  chat_completion : string -> result string;
  generate_audio : string -> result (option string);
  now : Z
}.

(** The mutable state: the generator's [redis_client] ([None] when no
    connection was made) with the contents of the store behind it, and
    the log of effects. *)
Record World : Type := {
  redis_client : option (gmap string CacheEntry);
  trace : list event
}.

(** The state after [__init__]: [redis_client] is set to [None], and the
    call [self._initialize_redis()] only creates a coroutine that is never
    awaited, so that no connection is made. *)
Definition initial_world : World := {| redis_client := None; trace := [] |}.

Definition log (e : event) (w : World) : World :=
  {| redis_client := redis_client w; trace := trace w ++ [e] |}.

(** [_generate_cache_key] *)
Definition key_string (vocabulary : list string) (difficulty : Z) (story_type : string)
  : string :=
  let sorted_vocab := sorted vocabulary in
  PyRepr.str_of_list sorted_vocab ++ "_" ++ PyRepr.str_of_int difficulty
    ++ "_" ++ story_type.

Definition _generate_cache_key
  (vocabulary : list string) (difficulty : Z) (story_type : string) : string :=
  MD5.hexdigest (encode (key_string vocabulary difficulty story_type)).

(** [_get_cached_story]: a miss without a client. *)
Definition _get_cached_story (cache_key : string) (w : World) : option Story * World :=
  match redis_client w with
  | None => (None, w)
  | Some store =>
      match store !! ("story:" ++ cache_key) with
      | Some entry => (Some (payload entry), log (CacheRead cache_key true) w)
      | None => (None, log (CacheRead cache_key false) w)
      end
  end.

(** [_cache_story]: nothing without a client. *)
Definition _cache_story (story : Story) (w : World) : World :=
  match redis_client w with
  | None => w
  | Some store =>
      log (CacheWrite (cache_key story) story)
        {| redis_client :=
             Some (<["story:" ++ cache_key story :=
                      {| payload := story; expire_hours := 24 |}]> store);
           trace := trace w |}
  end.

Definition nl : string := String (ascii_of_nat 10) "".

Definition difficulty_levels (difficulty : Z) : option string :=
  if (difficulty =? 1)%Z then Some "beginner"
  else if (difficulty =? 2)%Z then Some "elementary"
  else if (difficulty =? 3)%Z then Some "intermediate"
  else if (difficulty =? 4)%Z then Some "upper-intermediate"
  else if (difficulty =? 5)%Z then Some "advanced"
  else None.

(** A template after [.format(vocabulary=..., difficulty_text=...)]. *)
Definition general_template (vocabulary difficulty_text : string) : string :=
  "Create an engaging short story that naturally incorporates these vocabulary words: "
  ++ vocabulary ++ ". The story should be appropriate for " ++ difficulty_text
  ++ " level learners.".

Definition story_templates (story_type : string) : option (string -> string -> string) :=
  if String.eqb story_type "general" then Some general_template
  else if String.eqb story_type "adventure" then
    Some (fun vocabulary difficulty_text =>
      "Write an exciting adventure story using these vocabulary words: "
      ++ vocabulary ++ ". Make it engaging for " ++ difficulty_text
      ++ " level English learners.")
  else if String.eqb story_type "daily_life" then
    Some (fun vocabulary difficulty_text =>
      "Create a realistic story about daily life that includes these vocabulary words: "
      ++ vocabulary ++ ". Keep it suitable for " ++ difficulty_text
      ++ " level students.")
  else if String.eqb story_type "science" then
    Some (fun vocabulary difficulty_text =>
      "Write an educational science-themed story incorporating these vocabulary words: "
      ++ vocabulary ++ ". Make it accessible for " ++ difficulty_text
      ++ " level learners.")
  else if String.eqb story_type "history" then
    Some (fun vocabulary difficulty_text =>
      "Create an interesting historical story that uses these vocabulary words: "
      ++ vocabulary ++ ". Ensure it's appropriate for " ++ difficulty_text
      ++ " level students.")
  else None.

Definition _build_story_prompt
  (vocabulary : list string) (difficulty : Z) (story_type : string) (max_length : Z)
  : string :=
  let difficulty_text := default "intermediate" (difficulty_levels difficulty) in
  let template := default general_template (story_templates story_type) in
  let base_prompt := template (PyStr.join ", " vocabulary) difficulty_text in
  nl ++ base_prompt ++ nl ++ nl
  ++ "Requirements:" ++ nl
  ++ "1. Use ALL the vocabulary words naturally in the story context" ++ nl
  ++ "2. Keep the story between 300-" ++ PyRepr.str_of_int max_length ++ " words" ++ nl
  ++ "3. Make sure the story is coherent and engaging" ++ nl
  ++ "4. Adjust complexity to match " ++ difficulty_text ++ " reading level" ++ nl
  ++ "5. Each vocabulary word should appear at least once" ++ nl
  ++ "6. Make the story self-contained with a clear beginning, middle, and end" ++ nl
  ++ nl
  ++ "Vocabulary words to include: " ++ PyStr.join ", " vocabulary ++ nl
  ++ nl
  ++ "Please write the story now:" ++ nl.

(** The text of an exception, for the message of the one raised anew. *)
Definition exn_text (e : exn) : string :=
  match e with
  | ZeroDivisionError => "division by zero"
  | ProviderError msg => msg
  | GenerationFailed msg => msg
  end.

(** [generate_story]: probe the cache; on a miss call the provider,
    build the story and cache it. *)
Definition generate_story (env : Env)
  (vocabulary : list string) (difficulty : Z) (story_type : string) (max_length : Z)
  (w : World) : result Story * World :=
  let cache_key := _generate_cache_key vocabulary difficulty story_type in
  let '(cached_story, w) := _get_cached_story cache_key w in
  match cached_story with
  | Some story => (Ok story, w)
  | None =>
      let prompt := _build_story_prompt vocabulary difficulty story_type max_length in
      let w := log (ProviderCall prompt) w in
      match chat_completion env prompt with
      | Raise e =>
          (Raise (GenerationFailed ("Story generation failed: " ++ exn_text e)), w)
      | Ok response =>
          let story_content := PyStr.strip response in
          let word_count := length (PyStr.split story_content) in
          let story_lower := PyStr.lower story_content in
          let vocabulary_used :=
            List.filter (fun word => PyStr.contains (PyStr.lower word) story_lower)
                        vocabulary in
          let story :=
            {| content := story_content;
               vocabulary_used := vocabulary_used;
               word_count := word_count;
               difficulty := difficulty;
               story_type := story_type;
               cache_key := cache_key;
               created_at := now env |} in
          let w := _cache_story story w in
          (Ok story, w)
      end
  end.

End Generator.

(** ** The request handler ([main.py]) *)

Module Service.

Import Generator.

Record GenerateStoryRequest : Type := {
  req_vocabulary : list string;
  req_difficulty : Z;
  req_story_type : string;
  req_max_length : Z
}.

Record StoryResponse : Type := {
  resp_content : string;
  resp_vocabulary_used : list string;
  resp_word_count : nat;
  resp_difficulty : Z;
  resp_quality_score : Q;
  resp_audio_url : option string
}.

Inductive reply : Type :=
| Success (response : StoryResponse)
| HTTPException (status_code : nat) (detail : string).

(** The handler of [POST /generate-story]. *)
Definition generate_story (env : Env) (request : GenerateStoryRequest) (w : World)
  : reply * World :=
  match req_vocabulary request with
  | [] => (HTTPException 400 "Vocabulary list cannot be empty", w)
  | _ :: _ =>
      if (20 <? length (req_vocabulary request))%nat
      then (HTTPException 400 "Too many vocabulary words (max 20)", w)
      else
        match Generator.generate_story env (req_vocabulary request)
                (req_difficulty request) (req_story_type request)
                (req_max_length request) w with
        | (Raise e, w) =>
            (HTTPException 500 ("Internal server error: " ++ exn_text e), w)
        | (Ok story, w) =>
            let '(is_valid, quality_score) :=
              Validator.validate (content story) (req_vocabulary request) in
            let w := log (Validation (content story) is_valid) w in
            if negb is_valid
            then (HTTPException 500 "Generated content quality is insufficient", w)
            else
              let audio_url :=
                match generate_audio env (content story) with
                | Ok url => url
                | Raise _ => None
                end in
              (Success {| resp_content := content story;
                          resp_vocabulary_used := vocabulary_used story;
                          resp_word_count := word_count story;
                          resp_difficulty := difficulty story;
                          resp_quality_score := quality_score;
                          resp_audio_url := audio_url |}, w)
        end
  end.

End Service.

(** ** The specification's wording, for comparison with the code *)

Module Spec.

(** The last character of [s], or [prev] when [s] is empty. *)
Fixpoint last_or (prev : option ascii) (s : string) : option ascii :=
  match s with
  | "" => prev
  | String c s' => last_or (Some c) s'
  end.

(** [w] occurs in [t] as a whole word: at some position, with a word
    boundary on each side. *)
Definition whole_word_in (w t : string) : Prop :=
  exists pre post : string,
    t = pre ++ w ++ post /\
    Re.boundary (last_or None pre) (Re.head (w ++ post)) = true /\
    Re.boundary (last_or None (pre ++ w)) (Re.head post) = true.

(** The case-insensitive whole-word search of a vocabulary word. *)
Definition found_in (text word : string) : Prop :=
  whole_word_in (PyStr.lower word) (PyStr.lower text).

(** [w] is present in [t]: it occurs somewhere. *)
Definition occurs_in (w t : string) : Prop :=
  exists pre post : string, t = pre ++ w ++ post.


(** [n] of the elements of [l] satisfy [P]. *)
Inductive counts {A : Type} (P : A -> Prop) : list A -> nat -> Prop :=
| counts_nil : counts P [] 0
| counts_hit (x : A) (l : list A) (n : nat) :
    P x -> counts P l n -> counts P (x :: l) (S n)
| counts_miss (x : A) (l : list A) (n : nat) :
    ~ P x -> counts P l n -> counts P (x :: l) n.

(** The coherence score of a text with at least three sentences, from
    the numbers of markers present. *)
Definition coherence_of_counts (transitions pronouns connectors : nat) : Q :=
  Qmin 1 (0.5 + Qmin 0.2 (inject_Z (Z.of_nat transitions) * 0.05)
              + Qmin 0.15 (inject_Z (Z.of_nat pronouns) * 0.02)
              + Qmin 0.15 (inject_Z (Z.of_nat connectors) * 0.03))%Q.

(** [w] without its last [k] characters. *)
Definition drop_last (k : nat) (w : string) : string :=
  String.substring 0 (String.length w - k) w.

(** "Strip a trailing ed, es, or s suffix". *)
Definition strip_suffix (w : string) : string :=
  if PyStr.endswith "ed" w || PyStr.endswith "es" w then drop_last 2 w
  else if PyStr.endswith "s" w then drop_last 1 w
  else w.

Definition is_vowel (c : ascii) : bool :=
  existsb (Ascii.eqb c) ["a"; "e"; "i"; "o"; "u"; "y"]%char.

(** "Count transitions from non-vowel to vowel": the positions that hold
    a vowel and are not preceded by one. *)
Definition transitions_to_vowel (l : list ascii) : nat :=
  length
    (List.filter
       (fun i =>
          is_vowel (nth i l "000"%char) &&
          negb match i with
               | O => false
               | S j => is_vowel (nth j l "000"%char)
               end)
       (seq 0 (length l))).

(** The estimate for a token already trimmed and not empty. *)
Definition syllable_estimate (token : string) : nat :=
  let w := strip_suffix (PyStr.lower token) in
  let n := transitions_to_vowel (list_ascii_of_string w) in
  let n := if PyStr.endswith "e" w && (1 <? n)%nat then (n - 1)%nat else n in
  Nat.max 1 n.

(** A write to the cache comes only after the same text was accepted. *)
Definition writes_follow_validation (tr : list Generator.event) : Prop :=
  forall pre post key story,
    tr = (pre ++ Generator.CacheWrite key story :: post)%list ->
    In (Generator.Validation (Generator.content story) true) pre.

End Spec.

(** ** Definitions used in the proofs *)

Import Generator.

(** The transitions to a vowel in [l], [prev] telling whether the
    character before [l] is a vowel. *)
Fixpoint onsets_from (prev : bool) (l : list ascii) : nat :=
  match l with
  | [] => 0
  | c :: l' =>
      (if Spec.is_vowel c && negb prev then 1 else 0)
      + onsets_from (Spec.is_vowel c) l'
  end.

(** A word of 32 bits. *)
Definition word32 (x : Z) : Prop := (0 <= x < 2 ^ 32)%Z.

(** The four registers hold words of 32 bits. *)
Definition state_ok (st : MD5.state) : Prop :=
  word32 (MD5.sa st) /\ word32 (MD5.sb st) /\ word32 (MD5.sc st) /\ word32 (MD5.sd st).

(** The value of a hexadecimal digit. *)
Definition hex_value (c : ascii) : nat :=
  if PyStr.isdigit c then PyStr.code c - 48 else PyStr.code c - 87.

(** Reading back one character from the front of the body of a [repr]. *)
Definition decode_chunk (s : string) : option (ascii * string) :=
  match s with
  | "" => None
  | String a s1 =>
      if Ascii.eqb a PyRepr.backslash then
        match s1 with
        | "" => None
        | String b s2 =>
            if Ascii.eqb b "x" then
              match s2 with
              | String h1 (String h2 s3) =>
                  Some (ascii_of_nat (16 * hex_value h1 + hex_value h2), s3)
              | _ => None
              end
            else if Ascii.eqb b "t" then Some (ascii_of_nat 9, s2)
            else if Ascii.eqb b "n" then Some (ascii_of_nat 10, s2)
            else if Ascii.eqb b "r" then Some (ascii_of_nat 13, s2)
            else Some (b, s2)
        end
      else Some (a, s1)
  end.

(** The two delimiters of a [repr]. *)
Definition is_quote (q : ascii) : Prop := q = PyRepr.squote \/ q = PyRepr.dquote.

(** The body of a [repr]: the characters, escaped. *)
Definition chunks (q : ascii) (l : list ascii) : string :=
  String.concat "" (List.map (PyRepr.repr_char q) l).

(** The inside of the brackets of [str(l)]. *)
Definition items (l : list string) : string :=
  PyStr.join ", " (List.map PyRepr.repr_str l).

(** What follows the first item inside the brackets. *)
Definition items_rest (l : list string) (rest : string) : string :=
  match l with
  | [] => rest
  | _ :: _ => ", " ++ items l ++ rest
  end.

(** A provider that answers a text too short to be accepted, no speech,
    and a request for one word. *)
Definition demo_env : Env :=
  {| chat_completion := fun _ => Ok "short text";
     generate_audio := fun _ => Ok None;
     now := 0 |}.

(** The request of the scenario. *)
Definition demo_request : Service.GenerateStoryRequest :=
  {| Service.req_vocabulary := ["adventure"];
     Service.req_difficulty := 1;
     Service.req_story_type := "general";
     Service.req_max_length := 800 |}.

(** The story that [generate_story] builds from the answer of the
    provider. *)
Definition story_of (env : Env) (request : Service.GenerateStoryRequest)
  (response : string) : Story :=
  let vocabulary := Service.req_vocabulary request in
  let story_content := PyStr.strip response in
  {| content := story_content;
     vocabulary_used :=
       List.filter
         (fun word => PyStr.contains (PyStr.lower word) (PyStr.lower story_content))
         vocabulary;
     word_count := length (PyStr.split story_content);
     difficulty := Service.req_difficulty request;
     story_type := Service.req_story_type request;
     cache_key :=
       _generate_cache_key vocabulary (Service.req_difficulty request)
         (Service.req_story_type request);
     created_at := now env |}.

(** The prompt of a request. *)
Definition prompt_of (request : Service.GenerateStoryRequest) : string :=
  _build_story_prompt (Service.req_vocabulary request)
    (Service.req_difficulty request) (Service.req_story_type request)
    (Service.req_max_length request).

(** The cache key of a request. *)
Definition key_of (request : Service.GenerateStoryRequest) : string :=
  _generate_cache_key (Service.req_vocabulary request)
    (Service.req_difficulty request) (Service.req_story_type request).

(** What a miss leaves behind: the story in the store, and the write
    logged before the validation of the same text. *)
Definition cached_then_validated (env : Env)
  (request : Service.GenerateStoryRequest)
  (store : gmap string CacheEntry) (tr : list event) (response : string) : Prop :=
  let story := story_of env request response in
  let accepted :=
    fst (Validator.validate (content story) (Service.req_vocabulary request)) in
  let run :=
    Service.generate_story env request {| redis_client := Some store; trace := tr |} in
  redis_client (snd run)
  = Some (<["story:" ++ key_of request :=
            {| payload := story; expire_hours := 24 |}]> store) /\
  trace (snd run)
  = (tr ++ [CacheRead (key_of request) false;
            ProviderCall (prompt_of request);
            CacheWrite (key_of request) story;
            Validation (content story) accepted])%list /\
  (accepted = false ->
   fst run
   = Service.HTTPException 500 "Generated content quality is insufficient").

(** The characters of a sentence. *)
Definition has_punct (s : string) : bool :=
  existsb Re.ispunct (list_ascii_of_string s).

(** A sentence as the scorers see it: not empty, trimmed, without a
    terminator, and with a word in it. *)
Definition sentence_ok (s : string) : Prop :=
  s <> "" /\ PyStr.strip s = s /\ has_punct s = false /\ PyStr.split s <> [].

(** The penalties of the grammar scorer. *)
Definition grammar_product (content : string) : Q :=
  let sentences := Re.split_punct content in
  let capitalized :=
    length (List.filter (fun s => Validator.starts_upper (PyStr.strip s)) sentences) in
  let count := length (Validator.sentences_of content) in
  let words := length (PyStr.split content) in
  ((Z.of_nat capitalized # Pos.of_nat count)
   * (if PyStr.contains "." content then 1 else 0.8)
   * (if Re.search_punct_letter content then 0.9 else 1)
   * (if Qltb 30 (Z.of_nat words # Pos.of_nat count) then 0.8 else 1))%Q.

(** A lower-case hexadecimal digit. *)
Definition is_hex (c : ascii) : bool := PyStr.char_in c "0123456789abcdef".

(** A provider that always fails. *)
Definition failing_env : Env :=
  {| chat_completion := fun _ => Raise (ProviderError "timeout");
     generate_audio := fun _ => Raise (ProviderError "no speech");
     now := 0 |}.

(** A store that holds one story for the request of the scenario. *)
Definition demo_store : gmap string CacheEntry :=
  {[ "story:" ++ key_of demo_request :=
       {| payload := story_of demo_env demo_request "short text";
          expire_hours := 24 |} ]}.



(** A provider that answers the example of the specification. *)
Definition example_env : Env :=
  {| chat_completion := fun _ => Ok example_text;
     generate_audio := fun _ => Raise (ProviderError "no speech");
     now := 0 |}.

(** The request for the vocabulary of the example. *)
Definition example_request : Service.GenerateStoryRequest :=
  {| Service.req_vocabulary := example_vocabulary;
     Service.req_difficulty := 2;
     Service.req_story_type := "adventure";
     Service.req_max_length := 800 |}.

(** An answer without its audio. *)
Definition without_audio (r : Service.reply) : Service.reply :=
  match r with
  | Service.Success response =>
      Service.Success
        {| Service.resp_content := Service.resp_content response;
           Service.resp_vocabulary_used := Service.resp_vocabulary_used response;
           Service.resp_word_count := Service.resp_word_count response;
           Service.resp_difficulty := Service.resp_difficulty response;
           Service.resp_quality_score := Service.resp_quality_score response;
           Service.resp_audio_url := None |}
  | Service.HTTPException status_code detail =>
      Service.HTTPException status_code detail
  end.

(** The same environment with another speech provider. *)
Definition with_audio (env : Env) (audio : string -> result (option string)) : Env :=
  {| chat_completion := chat_completion env;
     generate_audio := audio;
     now := now env |}.


#[local] Arguments String.append : simpl nomatch.

(** * Facts about the string primitives *)

Lemma truthy_false (s : string) : PyStr.truthy s = false <-> s = "".
Proof. destruct s; simpl; split; congruence. Qed.

Lemma truthy_true (s : string) : PyStr.truthy s = true <-> s <> "".
Proof. destruct s; simpl; split; congruence. Qed.

Lemma isspace_lower_char (c : ascii) :
  PyStr.isspace (PyStr.lower_char c) = PyStr.isspace c.
Proof.
  unfold PyStr.lower_char.
  destruct (PyStr.isupper c) eqn:Hu; [|reflexivity].
  unfold PyStr.isupper, PyStr.isspace, PyStr.between, PyStr.code in *.
  apply andb_true_iff in Hu as [H1 H2].
  apply Nat.leb_le in H1, H2.
  assert (Hlt : (nat_of_ascii c + 32 < 256)%nat) by lia.
  rewrite nat_ascii_embedding by exact Hlt.
  repeat match goal with
         | |- context [(?a <=? ?b)%nat] => destruct (Nat.leb_spec a b)
         end; simpl; try reflexivity; lia.
Qed.

Lemma lower_lstrip (s : string) :
  PyStr.lower (PyStr.lstrip s) = PyStr.lstrip (PyStr.lower s).
Proof.
  induction s as [|c s IH]; simpl; [reflexivity|].
  rewrite isspace_lower_char.
  destruct (PyStr.isspace c); [exact IH | reflexivity].
Qed.

Lemma truthy_lower (s : string) : PyStr.truthy (PyStr.lower s) = PyStr.truthy s.
Proof. destruct s; reflexivity. Qed.

Lemma lower_rstrip (s : string) :
  PyStr.lower (PyStr.rstrip s) = PyStr.rstrip (PyStr.lower s).
Proof.
  induction s as [|c s IH]; simpl; [reflexivity|].
  rewrite isspace_lower_char, <- IH, truthy_lower.
  destruct (PyStr.isspace c && negb (PyStr.truthy (PyStr.rstrip s))); reflexivity.
Qed.

Lemma lower_strip (s : string) :
  PyStr.lower (PyStr.strip s) = PyStr.strip (PyStr.lower s).
Proof. unfold PyStr.strip. rewrite lower_rstrip, lower_lstrip. reflexivity. Qed.

Lemma rstrip_idem (s : string) : PyStr.rstrip (PyStr.rstrip s) = PyStr.rstrip s.
Proof.
  induction s as [|c s IH]; simpl; [reflexivity|].
  destruct (PyStr.isspace c && negb (PyStr.truthy (PyStr.rstrip s))) eqn:E;
    simpl; [reflexivity|].
  rewrite IH, E. reflexivity.
Qed.

Lemma lstrip_head (s : string) :
  match PyStr.lstrip s with
  | "" => True
  | String c _ => PyStr.isspace c = false
  end.
Proof.
  induction s as [|c s IH]; simpl; [exact I|].
  destruct (PyStr.isspace c) eqn:E; [exact IH | exact E].
Qed.

Lemma lstrip_fix (s : string) :
  match s with "" => True | String c _ => PyStr.isspace c = false end ->
  PyStr.lstrip s = s.
Proof. destruct s as [|c s]; simpl; [reflexivity|]. intros ->. reflexivity. Qed.

Lemma rstrip_head (s : string) :
  match s with "" => True | String c _ => PyStr.isspace c = false end ->
  match PyStr.rstrip s with "" => True | String c _ => PyStr.isspace c = false end.
Proof.
  destruct s as [|c s]; simpl; [trivial|].
  intros H. rewrite H. simpl. exact H.
Qed.

Lemma strip_idem (s : string) : PyStr.strip (PyStr.strip s) = PyStr.strip s.
Proof.
  unfold PyStr.strip.
  rewrite (lstrip_fix (PyStr.rstrip (PyStr.lstrip s))).
  - apply rstrip_idem.
  - apply rstrip_head, lstrip_head.
Qed.

Lemma length_lstrip (s : string) : (String.length (PyStr.lstrip s) <= String.length s)%nat.
Proof.
  induction s as [|c s IH]; simpl; [lia|].
  destruct (PyStr.isspace c); simpl; lia.
Qed.

Lemma length_rstrip (s : string) : (String.length (PyStr.rstrip s) <= String.length s)%nat.
Proof.
  induction s as [|c s IH]; simpl; [lia|].
  destruct (PyStr.isspace c && negb (PyStr.truthy (PyStr.rstrip s))); simpl; lia.
Qed.

Lemma length_strip (s : string) : (String.length (PyStr.strip s) <= String.length s)%nat.
Proof.
  unfold PyStr.strip.
  pose proof (length_rstrip (PyStr.lstrip s)). pose proof (length_lstrip s). lia.
Qed.

Lemma append_nil_r (s : string) : s ++ "" = s.
Proof. induction s as [|c s IH]; simpl; congruence. Qed.

Lemma append_assoc (a b c : string) : (a ++ b) ++ c = a ++ b ++ c.
Proof. induction a as [|x a IH]; simpl; congruence. Qed.

Lemma endswith_cons (suffix : string) (c : ascii) (s : string) :
  PyStr.endswith suffix (String c s)
  = String.eqb (String c s) suffix || PyStr.endswith suffix s.
Proof. reflexivity. Qed.

Lemma endswith_iff (suffix s : string) :
  PyStr.endswith suffix s = true <-> exists p, s = p ++ suffix.
Proof.
  induction s as [|c s IH].
  - simpl. rewrite orb_false_r. split.
    + intros H. destruct suffix; [|discriminate]. exists "". reflexivity.
    + intros [p Hp]. destruct p, suffix; try discriminate. reflexivity.
  - rewrite endswith_cons, orb_true_iff, IH, String.eqb_eq. split.
    + intros [<- | [p ->]]; [exists ""; reflexivity | exists (String c p); reflexivity].
    + intros [p Hp]. destruct p as [|x p]; simpl in Hp.
      * left. exact Hp.
      * right. exists p. congruence.
Qed.

Lemma length_append (a b : string) :
  String.length (a ++ b) = String.length a + String.length b.
Proof. induction a as [|c a IH]; simpl; [reflexivity|]. rewrite IH. reflexivity. Qed.

(** * The syllable estimator *)

Lemma sub_suffix_cons (c : ascii) (w : string) :
  Re.sub_suffix (String c w)
  = if String.eqb (String c w) "ed" || String.eqb (String c w) "es"
       || String.eqb (String c w) "s"
    then "" else String c (Re.sub_suffix w).
Proof. reflexivity. Qed.

Lemma eqb_longer (w t : string) :
  String.length t < String.length w -> String.eqb w t = false.
Proof.
  intros Hlt. apply String.eqb_neq. intros ->. lia.
Qed.

(** A string that ends in a suffix of two characters loses it. *)
Lemma sub_suffix_two (p : string) (a b : ascii) :
  String a (String b "") = "ed" \/ String a (String b "") = "es" ->
  Re.sub_suffix (p ++ String a (String b "")) = p.
Proof.
  intros Hab. induction p as [|c p IH].
  - destruct Hab as [-> | ->]; reflexivity.
  - change (String c p ++ String a (String b ""))
      with (String c (p ++ String a (String b ""))).
    rewrite sub_suffix_cons, IH.
    rewrite !eqb_longer; [reflexivity|..];
      simpl; rewrite length_append; simpl; lia.
Qed.

Lemma sub_suffix_ed (p : string) : Re.sub_suffix (p ++ "ed") = p.
Proof. apply sub_suffix_two. left. reflexivity. Qed.

Lemma sub_suffix_es (p : string) : Re.sub_suffix (p ++ "es") = p.
Proof. apply sub_suffix_two. right. reflexivity. Qed.

(** A string that ends in [s], not in [es], loses the [s]. *)
Lemma sub_suffix_s (p : string) :
  PyStr.endswith "es" (p ++ "s") = false -> Re.sub_suffix (p ++ "s") = p.
Proof.
  induction p as [|c p IH]; intros Hes; [reflexivity|].
  change (String c p ++ "s") with (String c (p ++ "s")) in *.
  rewrite endswith_cons in Hes. apply orb_false_iff in Hes as [Hne Hes].
  rewrite sub_suffix_cons, (IH Hes), Hne.
  assert (Hed : String.eqb (String c (p ++ "s")) "ed" = false).
  { apply String.eqb_neq. intros E. injection E as _ E.
    destruct p as [|x p]; [discriminate E|].
    injection E as _ E. destruct p; discriminate E. }
  rewrite Hed, (eqb_longer (String c (p ++ "s")) "s"); [reflexivity|].
  simpl. rewrite length_append. simpl. lia.
Qed.

(** A string with none of the three endings is left as it is. *)
Lemma sub_suffix_none (w : string) :
  PyStr.endswith "ed" w = false -> PyStr.endswith "es" w = false ->
  PyStr.endswith "s" w = false -> Re.sub_suffix w = w.
Proof.
  induction w as [|c w IH]; [reflexivity|].
  rewrite !endswith_cons, !orb_false_iff.
  intros [E1 H1] [E2 H2] [E3 H3].
  rewrite sub_suffix_cons, E1, E2, E3, (IH H1 H2 H3). reflexivity.
Qed.

Lemma drop_last_append (p suffix : string) :
  Spec.drop_last (String.length suffix) (p ++ suffix) = p.
Proof.
  unfold Spec.drop_last. rewrite length_append.
  replace (String.length p + String.length suffix - String.length suffix)
    with (String.length p) by lia.
  induction p as [|c p IH]; simpl.
  - destruct suffix; reflexivity.
  - f_equal. exact IH.
Qed.

(** The substitution of the code is the stripping of the specification. *)
Lemma sub_suffix_spec (w : string) : Re.sub_suffix w = Spec.strip_suffix w.
Proof.
  unfold Spec.strip_suffix.
  destruct (PyStr.endswith "ed" w) eqn:Hed.
  { apply endswith_iff in Hed as [p ->].
    rewrite sub_suffix_ed. symmetry. apply (drop_last_append p "ed"). }
  destruct (PyStr.endswith "es" w) eqn:Hes.
  { apply endswith_iff in Hes as [p ->].
    rewrite sub_suffix_es. symmetry. apply (drop_last_append p "es"). }
  destruct (PyStr.endswith "s" w) eqn:Hs; simpl.
  - apply endswith_iff in Hs as [p ->].
    rewrite (sub_suffix_s p Hes). symmetry. apply (drop_last_append p "s").
  - apply sub_suffix_none; assumption.
Qed.

(** The loop over the characters counts the transitions to a vowel. *)

Lemma char_in_vowels (c : ascii) :
  PyStr.char_in c Validator.vowels = Spec.is_vowel c.
Proof. reflexivity. Qed.

Lemma syllable_loop (l : list ascii) (n : nat) (prev : bool) :
  fst (fold_left Validator.syllable_step l (n, prev)) = n + onsets_from prev l.
Proof.
  revert n prev. induction l as [|c l IH]; intros n prev; simpl; [lia|].
  unfold Validator.syllable_step at 2. simpl fst. simpl snd.
  rewrite IH, char_in_vowels.
  destruct (Spec.is_vowel c && negb prev); lia.
Qed.

Lemma filter_map_length {A B : Type} (f : B -> bool) (g : A -> B) (l : list A) :
  length (List.filter f (List.map g l)) = length (List.filter (fun x => f (g x)) l).
Proof.
  induction l as [|x l IH]; simpl; [reflexivity|].
  destruct (f (g x)); simpl; rewrite IH; reflexivity.
Qed.

Lemma onsets_positions (l : list ascii) (prev : bool) :
  onsets_from prev l
  = length
      (List.filter
         (fun i =>
            Spec.is_vowel (nth i l "000"%char) &&
            negb match i with
                 | O => prev
                 | S j => Spec.is_vowel (nth j l "000"%char)
                 end)
         (seq 0 (length l))).
Proof.
  revert prev. induction l as [|c l IH]; intros prev; [reflexivity|].
  change (seq 0 (length (c :: l))) with (0 :: seq 1 (length l)).
  rewrite <- seq_shift.
  cbn [onsets_from List.filter nth].
  rewrite (IH (Spec.is_vowel c)).
  assert (Hext :
    length (List.filter
      (fun i => Spec.is_vowel (nth i l "000"%char) &&
                negb match i with
                     | O => Spec.is_vowel c
                     | S j => Spec.is_vowel (nth j l "000"%char)
                     end) (seq 0 (length l)))
    = length (List.filter
      (fun i => Spec.is_vowel (nth i (c :: l) "000"%char) &&
                negb match i with
                     | O => prev
                     | S j => Spec.is_vowel (nth j (c :: l) "000"%char)
                     end) (List.map S (seq 0 (length l))))).
  { rewrite filter_map_length. f_equal.
    apply List.filter_ext. intros [|i]; reflexivity. }
  rewrite Hext.
  destruct (Spec.is_vowel c && negb prev); simpl; reflexivity.
Qed.

Lemma syllable_loop_spec (w : string) :
  fst (fold_left Validator.syllable_step (list_ascii_of_string w) (0, false))
  = Spec.transitions_to_vowel (list_ascii_of_string w).
Proof.
  rewrite syllable_loop, onsets_positions. reflexivity.
Qed.

Lemma count_syllables_trimmed (token : string) :
  Validator._count_syllables token
  = if PyStr.truthy (PyStr.strip token)
    then Spec.syllable_estimate (PyStr.strip token) else 0.
Proof.
  unfold Validator._count_syllables, Spec.syllable_estimate.
  rewrite <- lower_strip, truthy_lower.
  destruct (PyStr.truthy (PyStr.strip token)); simpl; [|reflexivity].
  rewrite syllable_loop_spec, sub_suffix_spec. reflexivity.
Qed.

(** * Searching and counting *)

Lemma match_literal_iff (w : string) (prev : option ascii) (s : string) :
  Re.match_literal prev w s = true <->
  exists post, s = w ++ post /\
    Re.boundary (Spec.last_or prev w) (Re.head post) = true.
Proof.
  revert prev s. induction w as [|a w IH]; intros prev s.
  - simpl. split.
    + intros H. exists s. split; [reflexivity | exact H].
    + intros [post [-> H]]. exact H.
  - destruct s as [|c s].
    + simpl. split; [discriminate|]. intros [post [H _]]. discriminate H.
    + cbn [Re.match_literal Spec.last_or].
      rewrite andb_true_iff, Ascii.eqb_eq, IH. split.
      * intros [-> [post [-> H]]]. exists post. split; [reflexivity | exact H].
      * intros [post [E H]]. simpl in E. injection E as -> ->.
        split; [reflexivity|]. exists post. split; [reflexivity | exact H].
Qed.

Lemma last_or_append (pre w : string) (prev : option ascii) :
  Spec.last_or prev (pre ++ w) = Spec.last_or (Spec.last_or prev pre) w.
Proof.
  revert prev. induction pre as [|c pre IH]; intros prev; simpl; [reflexivity|].
  apply IH.
Qed.

Lemma search_word_from_iff (w s : string) (prev : option ascii) :
  Re.search_word_from prev w s = true <->
  exists pre post, s = pre ++ w ++ post /\
    Re.boundary (Spec.last_or prev pre) (Re.head (w ++ post)) = true /\
    Re.boundary (Spec.last_or prev (pre ++ w)) (Re.head post) = true.
Proof.
  revert prev. induction s as [|c s IH]; intros prev.
  - cbn [Re.search_word_from]. rewrite orb_false_r.
    unfold Re.match_word_here. rewrite andb_true_iff, match_literal_iff. split.
    + intros [Hb [post [E H]]]. exists "", post. simpl. rewrite <- E. auto.
    + intros [pre [post [E [H1 H2]]]].
      destruct pre; [|discriminate E]. simpl in *. rewrite <- E in H1.
      split; [exact H1|]. exists post. auto.
  - cbn [Re.search_word_from]. rewrite orb_true_iff, IH.
    unfold Re.match_word_here. rewrite andb_true_iff, match_literal_iff. split.
    + intros [[Hb [post [E H]]] | [pre [post [E [H1 H2]]]]].
      * exists "", post. simpl. rewrite <- E. auto.
      * exists (String c pre), post. simpl. rewrite E. auto.
    + intros [pre [post [E [H1 H2]]]]. destruct pre as [|x pre].
      * left. simpl in *. rewrite <- E in H1. split; [exact H1|].
        exists post. auto.
      * right. simpl in E. injection E as -> ->. exists pre, post. auto.
Qed.

(** The search of the code finds a word exactly when the word occurs
    as a whole word. *)
Lemma search_word_iff (w t : string) :
  Re.search_word w t = true <-> Spec.whole_word_in w t.
Proof. apply search_word_from_iff. Qed.

Lemma prefix_iff (w s : string) :
  String.prefix w s = true <-> exists post, s = w ++ post.
Proof.
  revert s. induction w as [|a w IH]; intros s.
  - split; [exists s; reflexivity | destruct s; reflexivity].
  - destruct s as [|c s]; simpl.
    + split; [discriminate | intros [post H]; discriminate H].
    + destruct (ascii_dec a c) as [->|Hne].
      * rewrite IH. split; intros [post E]; exists post; congruence.
      * split; [discriminate | intros [post E]; congruence].
Qed.

(** [w in t] holds exactly when [w] occurs in [t]. *)
Lemma contains_iff (w t : string) :
  PyStr.contains w t = true <-> Spec.occurs_in w t.
Proof.
  unfold Spec.occurs_in. induction t as [|c t IH].
  - cbn [PyStr.contains]. rewrite orb_false_r, prefix_iff. split.
    + intros [post E]. exists "", post. exact E.
    + intros [pre [post E]]. destruct pre; [|discriminate E]. exists post. exact E.
  - cbn [PyStr.contains]. rewrite orb_true_iff, IH, prefix_iff. split.
    + intros [[post E] | [pre [post E]]].
      * exists "", post. exact E.
      * exists (String c pre), post. simpl. congruence.
    + intros [pre [post E]]. destruct pre as [|x pre].
      * left. exists post. exact E.
      * right. simpl in E. injection E as -> ->. exists pre, post. reflexivity.
Qed.

Section Counting.

Context {A : Type} (f : A -> bool).

(** A loop that increments a counter on a test counts the elements that
    pass the test. *)
Lemma fold_count (l : list A) (n : nat) :
  fold_left (fun k x => if f x then S k else k) l n
  = n + length (List.filter f l).
Proof.
  revert n. induction l as [|x l IH]; intros n; simpl; [lia|].
  rewrite IH. destruct (f x); simpl; lia.
Qed.

Lemma filter_length_le (l : list A) :
  length (List.filter f l) <= length l.
Proof. induction l as [|x l IH]; simpl; [lia|]. destruct (f x); simpl; lia. Qed.

Context (P : A -> Prop).

Hypothesis f_decides_P : forall x, f x = true <-> P x.

Lemma counts_filter (l : list A) :
  Spec.counts P l (length (List.filter f l)).
Proof.
  induction l as [|x l IH]; simpl; [constructor|].
  destruct (f x) eqn:E; simpl.
  - apply Spec.counts_hit; [apply f_decides_P, E | exact IH].
  - apply Spec.counts_miss; [|exact IH].
    intros HP. apply f_decides_P in HP. congruence.
Qed.

End Counting.

Lemma counts_le {A : Type} (P : A -> Prop) (l : list A) (n : nat) :
  Spec.counts P l n -> n <= length l.
Proof. induction 1; simpl; lia. Qed.

Lemma counts_all {A : Type} (P : A -> Prop) (l : list A) (n : nat) :
  Spec.counts P l n -> (forall x, In x l -> P x) -> n = length l.
Proof.
  induction 1 as [|x l n Hx Hl IH|x l n Hx Hl IH]; intros Hall; simpl.
  - reflexivity.
  - f_equal. apply IH. intros y Hy. apply Hall. right. exact Hy.
  - exfalso. apply Hx. apply Hall. left. reflexivity.
Qed.

(** The coverage loop. *)
Lemma coverage_loop (content_lower : string) (vocabulary : list string) :
  fold_left (Validator.coverage_step content_lower) vocabulary 0
  = length (List.filter
              (fun word => Re.search_word (PyStr.lower word) content_lower)
              vocabulary).
Proof.
  unfold Validator.coverage_step.
  exact (fold_count
           (fun word => Re.search_word (PyStr.lower word) content_lower)
           vocabulary 0).
Qed.

Lemma coverage_counts (content : string) (vocabulary : list string) :
  Spec.counts (Spec.found_in content) vocabulary
    (fold_left (Validator.coverage_step (PyStr.lower content)) vocabulary 0).
Proof.
  rewrite coverage_loop. apply counts_filter.
  intros word. apply search_word_iff.
Qed.


(** Quotients of counts. *)
Lemma py_div_ok (a b : nat) :
  b <> 0 -> py_div a b = Ok (Z.of_nat a # Pos.of_nat b).
Proof. destruct b; [congruence | reflexivity]. Qed.

Lemma ratio_eq (a b : nat) :
  b <> 0 ->
  (Z.of_nat a # Pos.of_nat b == inject_Z (Z.of_nat a) / inject_Z (Z.of_nat b))%Q.
Proof.
  intros Hb. rewrite Qmake_Qdiv.
  replace (Z.pos (Pos.of_nat b)) with (Z.of_nat b); [reflexivity|].
  destruct b; [congruence|]. rewrite <- Pos.of_nat_succ. lia.
Qed.

Lemma ratio_bounds (a b : nat) :
  b <> 0 -> a <= b -> (0 <= Z.of_nat a # Pos.of_nat b <= 1)%Q.
Proof.
  intros Hb Hab. unfold Qle. simpl.
  assert (Z.pos (Pos.of_nat b) = Z.of_nat b).
  { destruct b; [congruence|]. rewrite <- Pos.of_nat_succ. lia. }
  lia.
Qed.

Lemma ratio_nonneg (a b : nat) : (0 <= Z.of_nat a # Pos.of_nat b)%Q.
Proof. unfold Qle. simpl. lia. Qed.

Lemma ratio_one (a : nat) : a <> 0 -> (Z.of_nat a # Pos.of_nat a == 1)%Q.
Proof.
  intros Ha. unfold Qeq. simpl.
  destruct a; [congruence|]. rewrite <- Pos.of_nat_succ. lia.
Qed.

(** * Ranges of the four scores *)


Lemma clamp_unit (x : Q) : (x <= 1 -> 0 <= Qmax 0 x <= 1)%Q.
Proof.
  intros Hx. split; [apply Q.le_max_l|].
  apply Q.max_lub; [lra | exact Hx].
Qed.

Lemma coverage_returns (content : string) (vocabulary : list string) :
  exists q, Validator._check_vocabulary_coverage content vocabulary = Ok q /\
            (0 <= q <= 1)%Q.
Proof.
  unfold Validator._check_vocabulary_coverage.
  destruct vocabulary as [|w V]; [exists 1%Q; split; [reflexivity | lra]|].
  set (l := w :: V). cbv zeta.
  rewrite py_div_ok by discriminate.
  eexists. split; [reflexivity|].
  apply ratio_bounds; [discriminate|].
  rewrite coverage_loop. apply filter_length_le.
Qed.

Lemma div_nonneg (x c : Q) : (0 <= x -> 0 < c -> 0 <= x / c)%Q.
Proof. intros Hx Hc. apply Qle_shift_div_l; [exact Hc | lra]. Qed.

Lemma readability_returns (content : string) :
  exists r, Validator._check_readability content = Ok r /\ (0 <= r <= 1)%Q.
Proof.
  unfold Validator._check_readability.
  destruct (Validator.sentences_of content) as [|s l] eqn:Hs;
    [exists 0%Q; split; [reflexivity | lra]|].
  cbv zeta.
  set (totals := fold_left Validator.sentence_step (s :: l) (0, (0, 0))).
  destruct (Nat.eqb_spec (fst totals) 0) as [|Hw];
    [exists 0%Q; split; [reflexivity | lra]|].
  rewrite !py_div_ok by (try exact Hw; discriminate).
  eexists. split; [reflexivity|].
  set (a := Z.of_nat (fst totals) # Pos.of_nat (length (s :: l))).
  set (b := Z.of_nat (fst (snd totals)) # Pos.of_nat (fst totals)).
  set (c := Z.of_nat (snd (snd totals)) # Pos.of_nat (fst totals)).
  assert (Hc : (0 <= c)%Q) by apply ratio_nonneg.
  pose proof (Qabs_nonneg (a - 15)) as Ha.
  pose proof (Qabs_nonneg (b - 2)) as Hb.
  destruct (clamp_unit (1 - Qabs (a - 15) / 15)) as [Ha0 Ha1].
  { pose proof (div_nonneg (Qabs (a - 15)) 15 Ha). lra. }
  destruct (clamp_unit (1 - Qabs (b - 2) / 2)) as [Hb0 Hb1].
  { pose proof (div_nonneg (Qabs (b - 2)) 2 Hb). lra. }
  destruct (clamp_unit (1 - c)) as [Hc0 Hc1]; [lra|].
  split.
  - apply Q.min_glb; [lra|]. apply div_nonneg; lra.
  - apply Q.le_min_l.
Qed.

Lemma coherence_of_counts_range (t p c : nat) :
  (1 # 2 <= Spec.coherence_of_counts t p c <= 1)%Q.
Proof.
  unfold Spec.coherence_of_counts. split; [|apply Q.le_min_l].
  assert (Hn : forall (n : nat) (cap step : Q),
             (0 <= cap -> 0 <= step ->
              0 <= Qmin cap (inject_Z (Z.of_nat n) * step))%Q).
  { intros n cap step Hcap Hstep. apply Q.min_glb; [exact Hcap|].
    apply Qmult_le_0_compat; [|exact Hstep].
    change 0%Q with (inject_Z 0). rewrite <- Zle_Qle. lia. }
  pose proof (Hn t 0.2 0.05)%Q. pose proof (Hn p 0.15 0.02)%Q.
  pose proof (Hn c 0.15 0.03)%Q.
  apply Q.min_glb; lra.
Qed.

Lemma coherence_cases (content : string) :
  Validator._check_coherence content
  = if (length (Validator.sentences_of content) <? 3)%nat then 0.3%Q
    else Spec.coherence_of_counts
           (Validator.indicator_count Validator.transitions (PyStr.lower content))
           (Validator.indicator_count Validator.pronouns (PyStr.lower content))
           (Validator.indicator_count Validator.connectors (PyStr.lower content)).
Proof.
  unfold Validator._check_coherence, Spec.coherence_of_counts. cbv zeta.
  destruct (length (Validator.sentences_of content) <? 3)%nat; reflexivity.
Qed.


(** The sentences of a text. *)

Lemma split_from_cons (in_sep : bool) (s : string) :
  exists frag rest, Re.split_from in_sep s = frag :: rest.
Proof.
  revert in_sep. induction s as [|c s IH]; intros in_sep; simpl; [eauto|].
  destruct (Re.ispunct c).
  - destruct in_sep; [apply IH | eauto].
  - destruct (IH false) as [frag [rest ->]]. eauto.
Qed.

Lemma sentences_of_length (content : string) :
  length (Validator.sentences_of content)
  = length (List.filter Validator.nonblank (Re.split_punct content)).
Proof. unfold Validator.sentences_of. apply length_map. Qed.

Lemma filter_length_mono {A : Type} (f g : A -> bool) (l : list A) :
  (forall x, f x = true -> g x = true) ->
  length (List.filter f l) <= length (List.filter g l).
Proof.
  intros Hfg. induction l as [|x l IH]; simpl; [lia|].
  destruct (f x) eqn:E.
  - rewrite (Hfg x E). simpl. lia.
  - destruct (g x); simpl; lia.
Qed.

(** The capitalised sentences are some of the non-blank ones. *)
Lemma capital_loop (sentences : list string) :
  fold_left Validator.capital_step sentences 0
  <= length (List.filter Validator.nonblank sentences).
Proof.
  unfold Validator.capital_step.
  rewrite (fold_count (fun s => Validator.starts_upper (PyStr.strip s))). simpl.
  apply filter_length_mono. intros s. unfold Validator.nonblank.
  destruct (PyStr.strip s); [discriminate | reflexivity].
Qed.


Lemma grammar_raises (content : string) :
  Validator.sentences_of content = [] ->
  Validator._check_basic_grammar content = Raise ZeroDivisionError.
Proof.
  intros He. unfold Validator._check_basic_grammar. cbv zeta.
  assert (Hlen : length (List.filter Validator.nonblank (Re.split_punct content)) = 0).
  { rewrite <- sentences_of_length, He. reflexivity. }
  destruct (split_from_cons false content) as [frag [rest Hsplit]].
  unfold Re.split_punct in *. rewrite Hsplit in *.
  rewrite Hlen. reflexivity.
Qed.

(** * The aggregate *)






Lemma comprehensive_validation_raises (content : string) (vocabulary : list string) :
  Validator.sentences_of content = [] ->
  Validator._comprehensive_validation content vocabulary = Raise ZeroDivisionError.
Proof.
  intros He. unfold Validator._comprehensive_validation. cbv zeta.
  destruct (coverage_returns content vocabulary) as [v [-> _]].
  destruct (readability_returns content) as [rd [-> _]].
  rewrite (grammar_raises content He). reflexivity.
Qed.

(** * The cache key *)

(** [sorted] does not see the order of its argument. *)
Lemma sorted_permutation (l1 l2 : list string) :
  l1 ≡ₚ l2 -> sorted l1 = sorted l2.
Proof.
  intros Hp. unfold sorted.
  apply (Sorted_unique String.le).
  - apply Sorted_merge_sort. apply _.
  - apply Sorted_merge_sort. apply _.
  - rewrite !merge_sort_Permutation. exact Hp.
Qed.

Lemma sorted_is_permutation (l : list string) : sorted l ≡ₚ l.
Proof. apply merge_sort_Permutation. Qed.

Lemma sorted_eq_iff (l1 l2 : list string) :
  sorted l1 = sorted l2 <-> l1 ≡ₚ l2.
Proof.
  split; [|apply sorted_permutation].
  intros E. rewrite <- (sorted_is_permutation l1), <- (sorted_is_permutation l2), E.
  reflexivity.
Qed.

(** The digest is a number of 128 bits. *)

Lemma mask32_word (x : Z) : word32 (MD5.mask32 x).
Proof. unfold word32, MD5.mask32. apply Z.mod_pos_bound. lia. Qed.

Lemma block_ok (st : MD5.state) (chunk : list Z) : state_ok (MD5.block st chunk).
Proof.
  unfold MD5.block, state_ok. cbv zeta. cbn [MD5.sa MD5.sb MD5.sc MD5.sd].
  repeat split; apply mask32_word.
Qed.

Lemma blocks_ok (count : nat) (st : MD5.state) (bytes : list Z) :
  state_ok st -> state_ok (MD5.blocks count st bytes).
Proof.
  revert st bytes. induction count as [|n IH]; intros st bytes Hst; simpl.
  - exact Hst.
  - apply IH, block_ok.
Qed.

Lemma pack_two (B x y : Z) (M : Z) :
  (0 < B -> 0 <= x < B -> 0 <= y < M -> 0 <= x + B * y < B * M)%Z.
Proof. intros HB Hx Hy. nia. Qed.

Lemma digest_int_range (msg : list Z) : (0 <= MD5.digest_int msg < 2 ^ 128)%Z.
Proof.
  unfold MD5.digest_int. cbv zeta.
  assert (Hok : state_ok (MD5.final_state msg)).
  { apply blocks_ok. unfold state_ok, word32, MD5.init.
    cbn [MD5.sa MD5.sb MD5.sc MD5.sd].
    repeat split; (apply Z.leb_le || apply Z.ltb_lt); reflexivity. }
  destruct Hok as (Ha & Hb & Hc & Hd). unfold word32 in *.
  change (2 ^ 128)%Z with (2 ^ 32 * (2 ^ 32 * (2 ^ 32 * 2 ^ 32)))%Z.
  change (2 ^ 96)%Z with (2 ^ 32 * (2 ^ 32 * 2 ^ 32))%Z.
  change (2 ^ 64)%Z with (2 ^ 32 * 2 ^ 32)%Z.
  set (B := (2 ^ 32)%Z) in *.
  assert (HB : (0 < B)%Z) by reflexivity.
  clearbody B.
  replace (MD5.sa (MD5.final_state msg) + B * MD5.sb (MD5.final_state msg)
           + B * B * MD5.sc (MD5.final_state msg)
           + B * (B * B) * MD5.sd (MD5.final_state msg))%Z
    with (MD5.sa (MD5.final_state msg)
          + B * (MD5.sb (MD5.final_state msg)
                 + B * (MD5.sc (MD5.final_state msg)
                        + B * MD5.sd (MD5.final_state msg))))%Z by ring.
  repeat (apply pack_two; [exact HB | assumption |]). assumption.
Qed.

(** More inputs than values: two inputs share a value. *)

Lemma bounded_search (P : Z -> Prop) (n : Z) :
  (forall i, {P i} + {~ P i}) -> (0 <= n)%Z ->
  (exists i, (0 <= i < n)%Z /\ P i) \/ (forall i, (0 <= i < n)%Z -> ~ P i).
Proof.
  intros Hdec. revert n. apply natlike_ind.
  - right. intros i Hi. lia.
  - intros n Hn [[i [Hi HP]] | Hnone].
    + left. exists i. split; [lia | exact HP].
    + destruct (Hdec n) as [HP | HP].
      * left. exists n. split; [lia | exact HP].
      * right. intros i Hi. destruct (Z.eq_dec i n) as [-> | Hne];
          [exact HP | apply Hnone; lia].
Qed.

Lemma pigeonhole (n : Z) :
  (0 <= n)%Z ->
  forall f : Z -> Z,
    (forall i, (0 <= i <= n)%Z -> (0 <= f i < n)%Z) ->
    exists i j, (0 <= i < j)%Z /\ (j <= n)%Z /\ f i = f j.
Proof.
  revert n. apply (natlike_ind (fun n => forall f : Z -> Z,
    (forall i, (0 <= i <= n)%Z -> (0 <= f i < n)%Z) ->
    exists i j, (0 <= i < j)%Z /\ (j <= n)%Z /\ f i = f j)).
  - intros f Hf. specialize (Hf 0%Z). lia.
  - intros n Hn IH f Hf.
    destruct (bounded_search (fun i => f i = f (n + 1)%Z) (n + 1))
      as [[i [Hi E]] | Hnone]; [intros i; apply Z.eq_dec | lia | |].
    + exists i, (n + 1)%Z. repeat split; [lia.. | exact E].
    + set (g := fun i => if Z.eq_dec (f i) n then f (n + 1)%Z else f i).
      destruct (IH g) as (i & j & Hij & Hj & E).
      { intros i Hi. unfold g. destruct (Z.eq_dec (f i) n) as [Efi | Efi].
        - pose proof (Hf (n + 1)%Z ltac:(lia)).
          assert (f i <> f (n + 1)%Z) by (apply Hnone; lia). lia.
        - pose proof (Hf i ltac:(lia)). lia. }
      unfold g in E.
      destruct (Z.eq_dec (f i) n) as [Ei | Ei], (Z.eq_dec (f j) n) as [Ej | Ej].
      * exists i, j. repeat split; [lia.. | congruence].
      * exfalso. apply (Hnone j); [lia | congruence].
      * exfalso. apply (Hnone i); [lia | congruence].
      * exists i, j. repeat split; [lia.. | exact E].
Qed.

(** Two difficulties share a key, whatever the vocabulary and the type
    of story. *)
Lemma cache_key_collision (vocabulary : list string) (story_type : string) :
  exists d d' : Z,
    d <> d' /\
    Generator._generate_cache_key vocabulary d story_type
    = Generator._generate_cache_key vocabulary d' story_type.
Proof.
  destruct (pigeonhole (2 ^ 128) ltac:(lia)
              (fun d => MD5.digest_int
                          (encode (Generator.key_string vocabulary d story_type))))
    as (d & d' & Hd & _ & E).
  { intros i _. apply digest_int_range. }
  exists d, d'. split; [lia|].
  unfold Generator._generate_cache_key, MD5.hexdigest. cbv beta in E.
  rewrite E. reflexivity.
Qed.

(** * The hashed string determines the request *)

(** Case analysis on the 256 characters. *)
Ltac each_char c := destruct c as [[] [] [] [] [] [] [] []].

Lemma decode_repr_char (q c : ascii) (rest : string) :
  is_quote q -> decode_chunk (PyRepr.repr_char q c ++ rest) = Some (c, rest).
Proof. intros [-> | ->]; each_char c; reflexivity. Qed.

Lemma repr_char_head (q c : ascii) (rest : string) :
  is_quote q -> Re.head (PyRepr.repr_char q c ++ rest) <> Some q.
Proof.
  intros [-> | ->]; each_char c; intros E; vm_compute in E; discriminate E.
Qed.

Lemma chunks_cons (q c : ascii) (l : list ascii) :
  chunks q (c :: l) = PyRepr.repr_char q c ++ chunks q l.
Proof.
  unfold chunks. destruct l as [|c' l]; simpl.
  - rewrite append_nil_r. reflexivity.
  - reflexivity.
Qed.

Lemma chunks_inj (q : ascii) (l l' : list ascii) (r r' : string) :
  is_quote q ->
  chunks q l ++ String q r = chunks q l' ++ String q r' -> l = l' /\ r = r'.
Proof.
  intros Hq. revert l'. induction l as [|c l IH]; intros [|c' l'].
  - simpl. intros E. injection E as ->. auto.
  - rewrite chunks_cons, append_assoc. intros E.
    apply (f_equal Re.head) in E. simpl in E.
    destruct (repr_char_head q c' _ Hq (eq_sym E)).
  - rewrite chunks_cons, append_assoc. intros E.
    apply (f_equal Re.head) in E. simpl in E.
    destruct (repr_char_head q c _ Hq E).
  - rewrite !chunks_cons, !append_assoc. intros E.
    apply (f_equal decode_chunk) in E.
    rewrite !decode_repr_char in E by exact Hq.
    injection E as -> E. destruct (IH l' E) as [-> ->]. auto.
Qed.

Lemma repr_str_unfold (s : string) :
  exists q, is_quote q /\
    PyRepr.repr_str s = String q (chunks q (list_ascii_of_string s) ++ String q "").
Proof.
  unfold PyRepr.repr_str. cbv zeta.
  destruct (PyStr.char_in PyRepr.squote s && negb (PyStr.char_in PyRepr.dquote s)).
  - exists PyRepr.dquote. split; [right; reflexivity | reflexivity].
  - exists PyRepr.squote. split; [left; reflexivity | reflexivity].
Qed.

(** A [repr] can be read back from the front of a longer string. *)
Lemma repr_str_inj (s s' r r' : string) :
  PyRepr.repr_str s ++ r = PyRepr.repr_str s' ++ r' -> s = s' /\ r = r'.
Proof.
  destruct (repr_str_unfold s) as (q & Hq & ->).
  destruct (repr_str_unfold s') as (q' & Hq' & ->).
  simpl. rewrite !append_assoc. simpl.
  intros E. injection E as <- E.
  destruct (chunks_inj q _ _ _ _ Hq E) as [El ->].
  split; [|reflexivity].
  rewrite <- (string_of_list_ascii_of_string s),
          <- (string_of_list_ascii_of_string s'), El.
  reflexivity.
Qed.

Lemma repr_str_head (s r : string) :
  exists q, is_quote q /\ Re.head (PyRepr.repr_str s ++ r) = Some q.
Proof.
  destruct (repr_str_unfold s) as (q & Hq & ->). exists q. auto.
Qed.

Lemma items_cons (x : string) (l : list string) (rest : string) :
  items (x :: l) ++ rest = PyRepr.repr_str x ++ items_rest l rest.
Proof.
  unfold items. destruct l as [|y l]; [reflexivity|].
  cbn [List.map PyStr.join items_rest].
  rewrite !append_assoc. reflexivity.
Qed.

Lemma quote_not_bracket (q : ascii) : is_quote q -> Some q <> Some "]"%char.
Proof. intros [-> | ->]; discriminate. Qed.

Lemma items_inj (l l' : list string) (r r' : string) :
  items l ++ String "]" r = items l' ++ String "]" r' -> l = l' /\ r = r'.
Proof.
  revert l'. induction l as [|x l IH]; intros [|x' l'].
  - simpl. intros E. injection E as ->. auto.
  - rewrite items_cons. intros E. apply (f_equal Re.head) in E.
    destruct (repr_str_head x' (items_rest l' (String "]" r'))) as (q & Hq & Hh).
    rewrite Hh in E. simpl in E. symmetry in E.
    exfalso. exact (quote_not_bracket q Hq E).
  - rewrite items_cons. intros E. apply (f_equal Re.head) in E.
    destruct (repr_str_head x (items_rest l (String "]" r))) as (q & Hq & Hh).
    rewrite Hh in E. simpl in E.
    exfalso. exact (quote_not_bracket q Hq E).
  - rewrite !items_cons. intros E.
    apply repr_str_inj in E as [-> E].
    destruct l as [|y l], l' as [|y' l']; simpl in E.
    + injection E as ->. auto.
    + discriminate E.
    + discriminate E.
    + injection E as E. destruct (IH (y' :: l') E) as [-> ->]. auto.
Qed.

Lemma str_of_list_inj (l l' : list string) (r r' : string) :
  PyRepr.str_of_list l ++ r = PyRepr.str_of_list l' ++ r' -> l = l' /\ r = r'.
Proof.
  unfold PyRepr.str_of_list. fold (items l). fold (items l').
  rewrite !append_assoc. simpl. intros E. injection E as E.
  apply items_inj. exact E.
Qed.

(** The text of an integer has no underscore and determines it. *)

Lemma string_of_uint_digits (d : Decimal.uint) :
  PyStr.char_in "_" (NilEmpty.string_of_uint d) = false.
Proof. induction d; simpl; try reflexivity; exact IHd. Qed.

Lemma str_of_int_digits (n : Z) :
  PyStr.char_in "_" (PyRepr.str_of_int n) = false.
Proof.
  unfold PyRepr.str_of_int, NilZero.string_of_int, NilZero.string_of_uint.
  destruct (Z.to_int n) as [d | d].
  - destruct d; try reflexivity; apply (string_of_uint_digits (_ d)).
  - change (PyStr.char_in "_" (match d with
                               | Decimal.Nil => "0"
                               | _ => NilEmpty.string_of_uint d
                               end) = false).
    destruct d; try reflexivity; apply (string_of_uint_digits (_ d)).
Qed.

Lemma to_int_not_nil (n : Z) :
  Z.to_int n <> Decimal.Pos Decimal.Nil /\ Z.to_int n <> Decimal.Neg Decimal.Nil.
Proof.
  destruct n as [|p|p]; simpl; split; try discriminate;
    intros E; injection E as E; exact (DecimalPos.Unsigned.to_uint_nonnil p E).
Qed.

Lemma str_of_int_inj (n n' : Z) :
  PyRepr.str_of_int n = PyRepr.str_of_int n' -> n = n'.
Proof.
  unfold PyRepr.str_of_int. intros E.
  apply (f_equal NilZero.int_of_string) in E.
  destruct (to_int_not_nil n) as [H1 H2], (to_int_not_nil n') as [H1' H2'].
  rewrite !NilZero.isi in E by assumption.
  injection E as E. apply DecimalZ.to_int_inj. exact E.
Qed.

(** Two texts without the separator, each followed by it. *)
Lemma split_at_underscore (s s' c c' : string) :
  PyStr.char_in "_" s = false -> PyStr.char_in "_" s' = false ->
  s ++ String "_" c = s' ++ String "_" c' -> s = s' /\ c = c'.
Proof.
  revert s'. induction s as [|a s IH]; intros [|a' s'] Hs Hs'; simpl; intros E.
  - injection E as ->. auto.
  - injection E as <- _. discriminate Hs'.
  - injection E as -> _. discriminate Hs.
  - injection E as <- E.
    unfold PyStr.char_in in Hs, Hs'. simpl in Hs, Hs'.
    apply orb_false_iff in Hs as [_ Hs]. apply orb_false_iff in Hs' as [_ Hs'].
    destruct (IH s' Hs Hs' E) as [-> ->]. auto.
Qed.

(** The string that is hashed determines the sorted vocabulary, the
    difficulty and the type of story. *)
Lemma key_string_inj (V V' : list string) (d d' : Z) (c c' : string) :
  Generator.key_string V d c = Generator.key_string V' d' c' ->
  sorted V = sorted V' /\ d = d' /\ c = c'.
Proof.
  unfold Generator.key_string. cbv zeta. intros E.
  apply str_of_list_inj in E as [EV E]. simpl in E. injection E as E.
  apply split_at_underscore in E as [Ed Ec]; try apply str_of_int_digits.
  apply str_of_int_inj in Ed. auto.
Qed.

Lemma key_string_iff (V V' : list string) (d d' : Z) (c c' : string) :
  Generator.key_string V d c = Generator.key_string V' d' c' <->
  V ≡ₚ V' /\ d = d' /\ c = c'.
Proof.
  split.
  - intros E. apply key_string_inj in E as (EV & -> & ->).
    apply sorted_eq_iff in EV. auto.
  - intros (HV & -> & ->). unfold Generator.key_string.
    rewrite (sorted_permutation V V' HV). reflexivity.
Qed.

(** * The embedding on examples *)

Example split_punct_example :
  Re.split_punct ".a..b" = [""; "a"; "b"] /\
  Re.split_punct "a." = ["a"; ""] /\
  Re.split_punct "" = [""].
Proof. repeat split. Qed.

Example split_example : PyStr.split "  ab  c d " = ["ab"; "c"; "d"].
Proof. reflexivity. Qed.

Example sub_suffix_example :
  List.map Re.sub_suffix ["walked"; "boxes"; "cats"; "class"; "eds"; "ses"; "the"]
  = ["walk"; "box"; "cat"; "clas"; "ed"; "s"; "the"].
Proof. reflexivity. Qed.

Example search_word_example :
  Re.search_word "explore" "the explorer" = false /\
  Re.search_word "explore" "to explore, then" = true.
Proof. split; reflexivity. Qed.

Example count_syllables_example :
  List.map Validator._count_syllables
    ["make"; "Wanted"; "mysterious"; "adventure"; "s"; "cats"]
  = [1; 1; 3; 3; 1; 1].
Proof. reflexivity. Qed.

(** The second example of the specification: a short text without the
    word is rejected, with the length and the coverage among the issues. *)
Example short_text_rejected :
  exists r,
    Validator._comprehensive_validation "short text" ["adventure"] = Ok r /\
    Validator.is_valid r = false /\
    In Validator.ContentTooShort (Validator.issues r) /\
    In (Validator.LowVocabularyCoverage 0) (Validator.issues r).
Proof.
  eexists. split; [vm_compute; reflexivity|].
  split; [reflexivity|]. simpl. auto.
Qed.

(** * The properties of the validator *)


(** C2. The grammar scorer on the empty text: the division by the
    number of non-blank sentences raises [ZeroDivisionError], as it does
    on every text without a sentence, and the comprehensive validation
    raises with it; the other scorers return. *)
Theorem grammar_scorer_raises_on_empty :
  Validator._check_basic_grammar "" = Raise ZeroDivisionError /\
  Validator._check_basic_grammar "..." = Raise ZeroDivisionError /\
  Validator._comprehensive_validation "" ["adventure"] = Raise ZeroDivisionError /\
  (forall content,
     Validator.sentences_of content = [] ->
     Validator._check_basic_grammar content = Raise ZeroDivisionError) /\
  Validator._check_vocabulary_coverage "" ["adventure"] = Ok 0%Q /\
  Validator._check_readability "" = Ok 0%Q /\
  Validator._check_coherence "" = 0.3%Q /\
  Validator._count_syllables "" = 0.
Proof.
  repeat split; try reflexivity. apply grammar_raises.
Qed.

(** C5. The coverage of a non-empty vocabulary is the number of its
    words found in the text by the case-insensitive whole-word search,
    divided by the size of the vocabulary; it lies between 0 and 1 and
    is 1 when every word is found.  The empty vocabulary scores 1. *)
Theorem vocabulary_coverage_ratio (content : string) (vocabulary : list string) :
  match vocabulary with
  | [] => Validator._check_vocabulary_coverage content vocabulary = Ok 1%Q
  | _ :: _ =>
      exists (n : nat) (q : Q),
        Spec.counts (Spec.found_in content) vocabulary n /\
        Validator._check_vocabulary_coverage content vocabulary = Ok q /\
        (q == inject_Z (Z.of_nat n) / inject_Z (Z.of_nat (length vocabulary)))%Q /\
        (0 <= q <= 1)%Q /\
        ((forall word, In word vocabulary -> Spec.found_in content word) ->
         (q == 1)%Q)
  end.
Proof.
  destruct vocabulary as [|w V]; [reflexivity|].
  set (l := w :: V).
  pose proof (coverage_counts content l) as Hn.
  set (n := fold_left (Validator.coverage_step (PyStr.lower content)) l 0) in *.
  assert (Hl : length l <> 0) by discriminate.
  exists n, (Z.of_nat n # Pos.of_nat (length l))%Q.
  split; [exact Hn|]. split.
  { unfold Validator._check_vocabulary_coverage. cbv zeta.
    apply py_div_ok. exact Hl. }
  split; [apply ratio_eq; exact Hl|]. split.
  - apply ratio_bounds; [exact Hl | apply (counts_le _ _ _ Hn)].
  - intros Hall. rewrite (counts_all _ _ _ Hn Hall). apply ratio_one. exact Hl.
Qed.





(** C9. The example of the specification: all four words are found,
    the text is valid and its composite score is at least 0.70. *)
Theorem example_text_valid :
  exists r,
    Validator._comprehensive_validation example_text example_vocabulary = Ok r /\
    (Validator.vocabulary_coverage r == 1)%Q /\
    Validator.is_valid r = true /\
    (0.7 <= Validator.quality_score r)%Q /\
    Validator.issues r = [] /\
    Validator.validate example_text example_vocabulary
    = (true, Validator.quality_score r).
Proof.
  eexists. split; [vm_compute; reflexivity|].
  repeat split; vm_compute; congruence.
Qed.

(** C10. [validate] returns a pair for every text and vocabulary: the
    verdict and score of the record when the validation returns one,
    and [(False, 0.0)] when anything inside raises, as it does on the
    empty text. *)
Theorem validate_catches (content : string) (vocabulary : list string) :
  (forall e,
     Validator._comprehensive_validation content vocabulary = Raise e ->
     Validator.validate content vocabulary = (false, 0%Q)) /\
  (forall r,
     Validator._comprehensive_validation content vocabulary = Ok r ->
     Validator.validate content vocabulary
     = (Validator.is_valid r, Validator.quality_score r)) /\
  (Validator.sentences_of content = [] ->
   Validator.validate content vocabulary = (false, 0%Q)) /\
  Validator.validate "" vocabulary = (false, 0%Q) /\
  (exists verdict score,
     Validator.validate content vocabulary = (verdict, score)).
Proof.
  assert (Hpair : exists verdict score,
             Validator.validate content vocabulary = (verdict, score)).
  { destruct (Validator.validate content vocabulary) as [verdict score]. eauto. }
  unfold Validator.validate in *. repeat split; try exact Hpair.
  - intros e ->. reflexivity.
  - intros r ->. reflexivity.
  - intros He. rewrite (comprehensive_validation_raises _ _ He). reflexivity.
  - rewrite (comprehensive_validation_raises "" vocabulary); reflexivity.
Qed.

(** * The request handler on a cache miss *)

Lemma generate_story_miss (env : Env) (request : Service.GenerateStoryRequest)
  (store : gmap string CacheEntry) (tr : list event) (response : string) :
  store !! ("story:" ++ key_of request) = None ->
  chat_completion env (prompt_of request) = Ok response ->
  Generator.generate_story env (Service.req_vocabulary request)
    (Service.req_difficulty request) (Service.req_story_type request)
    (Service.req_max_length request) {| redis_client := Some store; trace := tr |}
  = (Ok (story_of env request response),
     {| redis_client :=
          Some (<["story:" ++ key_of request :=
                   {| payload := story_of env request response;
                      expire_hours := 24 |}]> store);
        trace :=
          (tr ++ [CacheRead (key_of request) false;
                  ProviderCall (prompt_of request);
                  CacheWrite (key_of request) (story_of env request response)])%list |}).
Proof.
  intros Hmiss Hllm.
  unfold Generator.generate_story, _get_cached_story. cbv zeta.
  cbn [redis_client]. fold (key_of request). rewrite Hmiss.
  fold (prompt_of request). cbn [log redis_client trace]. rewrite Hllm.
  unfold _cache_story. cbn [redis_client trace log cache_key].
  fold (key_of request). unfold story_of. cbv zeta. cbn [cache_key].
  fold (key_of request).
  unfold log. cbn [redis_client trace].
  rewrite <- !app_assoc. reflexivity.
Qed.

Lemma service_miss (env : Env) (request : Service.GenerateStoryRequest)
  (store : gmap string CacheEntry) (tr : list event) (response : string) :
  Service.req_vocabulary request <> [] ->
  length (Service.req_vocabulary request) <= 20 ->
  store !! ("story:" ++ key_of request) = None ->
  chat_completion env (prompt_of request) = Ok response ->
  cached_then_validated env request store tr response.
Proof.
  intros Hne Hlen Hmiss Hllm. unfold cached_then_validated. cbv zeta.
  unfold Service.generate_story.
  destruct (Service.req_vocabulary request) as [|w V] eqn:HV; [congruence|].
  rewrite <- HV in *.
  assert (Hle : (20 <? length (Service.req_vocabulary request))%nat = false)
    by (apply Nat.ltb_ge; exact Hlen).
  rewrite Hle, (generate_story_miss env request store tr response Hmiss Hllm).
  destruct (Validator.validate (content (story_of env request response))
              (Service.req_vocabulary request)) as [is_valid quality] eqn:Hval.
  cbn [fst]. unfold log.
  destruct is_valid; cbn [negb redis_client trace fst snd];
    rewrite <- !app_assoc; repeat split; discriminate.
Qed.

(** Without a client nothing is written. *)
Lemma no_client_no_write (env : Env) (request : Service.GenerateStoryRequest)
  (tr : list event) :
  let run :=
    Service.generate_story env request {| redis_client := None; trace := tr |} in
  redis_client (snd run) = None /\
  exists new, trace (snd run) = (tr ++ new)%list /\
              forall key story, ~ In (CacheWrite key story) new.
Proof.
  cbv zeta. unfold Service.generate_story.
  destruct (Service.req_vocabulary request) as [|w V] eqn:HV.
  { split; [reflexivity|]. exists []. rewrite app_nil_r. split; [reflexivity|].
    intros key story []. }
  rewrite <- HV.
  destruct (20 <? length (Service.req_vocabulary request))%nat.
  { split; [reflexivity|]. exists []. rewrite app_nil_r. split; [reflexivity|].
    intros key story []. }
  unfold Generator.generate_story, _get_cached_story. cbv zeta.
  cbn [redis_client log trace].
  destruct (chat_completion env _) as [response | e].
  - unfold _cache_story. cbn [redis_client log trace].
    destruct (Validator.validate _ _) as [is_valid quality].
    unfold log. destruct is_valid; cbn [negb redis_client trace fst snd];
      (split; [reflexivity|]); rewrite <- app_assoc;
      eexists; (split; [reflexivity|]);
      intros key story [H | [H | []]]; discriminate H.
  - cbn [redis_client trace snd]. split; [reflexivity|].
    eexists. split; [reflexivity|].
    intros key story [H | []]; discriminate H.
Qed.

(** The service as [main.py] starts it never caches. *)
Lemma initial_world_never_caches (env : Env) (request : Service.GenerateStoryRequest) :
  redis_client (snd (Service.generate_story env request initial_world)) = None.
Proof. apply (no_client_no_write env request []). Qed.

(** The digests of RFC 1321 and the key of the test of the repository. *)
Example md5_test_suite :
  MD5.hexdigest (encode "") = "d41d8cd98f00b204e9800998ecf8427e" /\
  MD5.hexdigest (encode "abc") = "900150983cd24fb0d6963f7d28e17f72" /\
  MD5.hexdigest (encode "message digest") = "f96b697d7cb7938d525a2f31aaf161d0".
Proof. repeat split; vm_compute; reflexivity. Qed.

Example cache_key_example :
  key_string example_vocabulary 2 "adventure"
  = "['adventure', 'discover', 'explore', 'mysterious']_2_adventure" /\
  _generate_cache_key example_vocabulary 2 "adventure"
  = "53bb6dec60a2a23213ef5f29706380c2".
Proof. split; vm_compute; reflexivity. Qed.

(** * The properties of the cache *)

(** C3, as the code has it.  On a miss with a connected client and a
    request that passes the checks of the handler, the story is written
    to the cache as soon as the provider has answered: the write comes
    before the validation of the text and does not depend on its
    verdict, and a rejected text stays in the cache while the handler
    answers with status 500. *)
Theorem story_cached_before_validation
  (env : Env) (request : Service.GenerateStoryRequest)
  (store : gmap string CacheEntry) (tr : list event) (response : string) :
  Service.req_vocabulary request <> [] ->
  length (Service.req_vocabulary request) <= 20 ->
  store !! ("story:" ++ key_of request) = None ->
  chat_completion env (prompt_of request) = Ok response ->
  cached_then_validated env request store tr response.
Proof. exact (service_miss env request store tr response). Qed.

Lemma story_cached_before_validation_witness :
  cached_then_validated demo_env demo_request ∅ [] "short text".
Proof.
  apply story_cached_before_validation;
    [discriminate | simpl; lia | reflexivity | reflexivity].
Defined.

(** C3, as the claim has it: the provider answers "short text", the
    validation rejects it and the handler answers 500, and yet the text
    is in the cache, written before it was validated. *)
Lemma rejected_story_is_cached :
  let run :=
    Service.generate_story demo_env demo_request
      {| redis_client := Some ∅; trace := [] |} in
  fst run
  = Service.HTTPException 500 "Generated content quality is insufficient" /\
  fst (Validator.validate "short text" ["adventure"]) = false /\
  (exists store entry,
     redis_client (snd run) = Some store /\
     store !! ("story:" ++ key_of demo_request) = Some entry /\
     content (payload entry) = "short text") /\
  ~ Spec.writes_follow_validation (trace (snd run)).
Proof.
  cbv zeta.
  destruct (service_miss demo_env demo_request ∅ [] "short text")
    as (Hstore & Htrace & Hreply);
    [discriminate | simpl; lia | reflexivity | reflexivity |].
  assert (Hrej : fst (Validator.validate "short text" ["adventure"]) = false)
    by (vm_compute; reflexivity).
  split; [apply Hreply; exact Hrej|]. split; [exact Hrej|]. split.
  - eexists _, _. split; [exact Hstore|]. split; [apply lookup_insert_eq|].
    reflexivity.
  - rewrite Htrace. intros H.
    specialize (H [CacheRead (key_of demo_request) false;
                   ProviderCall (prompt_of demo_request)]
                  [Validation (content (story_of demo_env demo_request "short text"))
                     (fst (Validator.validate
                             (content (story_of demo_env demo_request "short text"))
                             (Service.req_vocabulary demo_request)))]
                  (key_of demo_request)
                  (story_of demo_env demo_request "short text") eq_refl).
    destruct H as [H | [H | []]]; discriminate H.
Qed.

(** C4, as the code has it.  The key does not depend on the order of
    the vocabulary.  It is the MD5 digest of a string that changes with
    the difficulty, the type of story and the vocabulary as a multiset;
    the digest itself is one of [2 ^ 128] values. *)
Theorem cache_key_canonical (V V' : list string) (d d' : Z) (c c' : string) :
  (V ≡ₚ V' -> _generate_cache_key V d c = _generate_cache_key V' d c) /\
  _generate_cache_key V d c = MD5.hexdigest (encode (key_string V d c)) /\
  (key_string V d c = key_string V' d' c' <-> V ≡ₚ V' /\ d = d' /\ c = c') /\
  (0 <= MD5.digest_int (encode (key_string V d c)) < 2 ^ 128)%Z.
Proof.
  split; [|split; [reflexivity|split; [apply key_string_iff|apply digest_int_range]]].
  intros HV. unfold _generate_cache_key, key_string.
  rewrite (sorted_permutation V V' HV). reflexivity.
Qed.

(** C4, as the claim has it: two difficulties with the same key. *)
Lemma cache_key_not_injective :
  exists d d' : Z,
    d <> d' /\
    _generate_cache_key example_vocabulary d "adventure"
    = _generate_cache_key example_vocabulary d' "adventure".
Proof. apply cache_key_collision. Qed.

(** * Further facts about the validator *)

Lemma lower_char_idem (c : ascii) :
  PyStr.lower_char (PyStr.lower_char c) = PyStr.lower_char c.
Proof.
  unfold PyStr.lower_char.
  destruct (PyStr.isupper c) eqn:Hu; [|rewrite Hu; reflexivity].
  assert (Hn : PyStr.isupper (ascii_of_nat (PyStr.code c + 32)) = false);
    [|rewrite Hn; reflexivity].
  unfold PyStr.isupper, PyStr.between, PyStr.code in *.
  apply andb_true_iff in Hu as [H1 H2]. apply Nat.leb_le in H1, H2.
  rewrite nat_ascii_embedding by lia.
  apply andb_false_iff. right. apply Nat.leb_gt. lia.
Qed.

Lemma lower_idem (s : string) : PyStr.lower (PyStr.lower s) = PyStr.lower s.
Proof.
  induction s as [|c s IH]; simpl; [reflexivity|].
  rewrite lower_char_idem, IH. reflexivity.
Qed.

Lemma split_from_no_punct (in_sep : bool) (s : string) :
  Forall (fun frag => has_punct frag = false) (Re.split_from in_sep s).
Proof.
  revert in_sep. induction s as [|c s IH]; intros in_sep; simpl.
  - constructor; [reflexivity | constructor].
  - destruct (Re.ispunct c) eqn:Hc.
    + destruct in_sep; [apply IH|]. constructor; [reflexivity | apply IH].
    + specialize (IH false). destruct (Re.split_from false s) as [|frag rest].
      * constructor; [|constructor]. unfold has_punct. simpl. rewrite Hc. reflexivity.
      * inversion IH as [|? ? Hfrag Hrest]; subst. constructor; [|exact Hrest].
        unfold has_punct in *. simpl. rewrite Hc. exact Hfrag.
Qed.

Lemma has_punct_lstrip (s : string) :
  has_punct s = false -> has_punct (PyStr.lstrip s) = false.
Proof.
  induction s as [|c s IH]; simpl; [auto|].
  unfold has_punct in *. simpl. intros H. apply orb_false_iff in H as [Hc Hs].
  destruct (PyStr.isspace c); [apply IH, Hs|]. simpl. rewrite Hc, Hs. reflexivity.
Qed.

Lemma has_punct_rstrip (s : string) :
  has_punct s = false -> has_punct (PyStr.rstrip s) = false.
Proof.
  induction s as [|c s IH]; simpl; [auto|].
  unfold has_punct in *. simpl. intros H. apply orb_false_iff in H as [Hc Hs].
  destruct (PyStr.isspace c && negb (PyStr.truthy (PyStr.rstrip s))); [reflexivity|].
  simpl. rewrite Hc, (IH Hs). reflexivity.
Qed.

Lemma strip_head (s : string) :
  match PyStr.strip s with
  | "" => True
  | String c _ => PyStr.isspace c = false
  end.
Proof. unfold PyStr.strip. apply rstrip_head, lstrip_head. Qed.

Lemma split_nonempty (s : string) :
  match s with "" => False | String c _ => PyStr.isspace c = false end ->
  PyStr.split s <> [].
Proof.
  destruct s as [|c s]; [intros []|]. intros Hc. simpl. rewrite Hc.
  destruct s as [|c' s']; [discriminate|].
  destruct (PyStr.isspace c'); [discriminate|].
  destruct (PyStr.split (String c' s')); discriminate.
Qed.

Lemma sentences_ok (content : string) :
  Forall sentence_ok (Validator.sentences_of content).
Proof.
  unfold Validator.sentences_of.
  pose proof (split_from_no_punct false content) as Hall.
  fold (Re.split_punct content) in Hall.
  induction Hall as [|frag rest Hfrag Hrest IH]; simpl; [constructor|].
  destruct (Validator.nonblank frag) eqn:Hnb; [|exact IH].
  simpl. constructor; [|exact IH].
  unfold Validator.nonblank in Hnb. apply truthy_true in Hnb.
  repeat split.
  - exact Hnb.
  - apply strip_idem.
  - unfold PyStr.strip. apply has_punct_rstrip, has_punct_lstrip, Hfrag.
  - apply split_nonempty. pose proof (strip_head frag) as Hh.
    destruct (PyStr.strip frag); [congruence | exact Hh].
Qed.

(** The totals of the readability loop. *)
Lemma sentence_step_total (sentences : list string) (st : nat * (nat * nat)) :
  Forall sentence_ok sentences ->
  fst st + length sentences <= fst (fold_left Validator.sentence_step sentences st).
Proof.
  intros Hall. revert st. induction Hall as [|s l Hs Hl IH]; intros st; simpl; [lia|].
  etransitivity; [|apply IH]. simpl.
  destruct Hs as (_ & _ & _ & Hw). destruct (PyStr.split s); [congruence|]. simpl. lia.
Qed.

Lemma length_lower (s : string) : String.length (PyStr.lower s) = String.length s.
Proof. induction s as [|c s IH]; simpl; congruence. Qed.

Lemma length_sub_suffix (w : string) :
  String.length (Re.sub_suffix w) <= String.length w.
Proof.
  induction w as [|c w IH]; [simpl; lia|].
  rewrite sub_suffix_cons. destruct (_ || _); simpl; lia.
Qed.

Lemma length_list_ascii (s : string) :
  length (list_ascii_of_string s) = String.length s.
Proof. induction s as [|c s IH]; simpl; congruence. Qed.

Lemma transitions_le_length (l : list ascii) :
  Spec.transitions_to_vowel l <= length l.
Proof.
  unfold Spec.transitions_to_vowel.
  etransitivity; [apply filter_length_le|]. rewrite length_seq. lia.
Qed.


Lemma filter_length_permutation {A : Type} (f : A -> bool) (l l' : list A) :
  l ≡ₚ l' -> length (List.filter f l) = length (List.filter f l').
Proof.
  induction 1 as [|x l l' _ IH|x y l|l l' l'' _ IH1 _ IH2]; simpl.
  - reflexivity.
  - destruct (f x); simpl; congruence.
  - destruct (f x), (f y); reflexivity.
  - congruence.
Qed.

Lemma filter_map_lower (t : string) (V : list string) :
  List.filter (fun word => Re.search_word (PyStr.lower word) t)
              (List.map PyStr.lower V)
  = List.map PyStr.lower
      (List.filter (fun word => Re.search_word (PyStr.lower word) t) V).
Proof.
  induction V as [|w V IH]; simpl; [reflexivity|].
  rewrite lower_idem. destruct (Re.search_word (PyStr.lower w) t); simpl; congruence.
Qed.

Lemma Qmin_cap (cap x : Q) : (Qmin cap x == cap)%Q <-> (cap <= x)%Q.
Proof.
  split.
  - intros E. rewrite <- E. apply Q.le_min_r.
  - intros H. apply Q.min_l. exact H.
Qed.

Lemma scaled_count_ge (n : nat) (k : Z) (a b : positive) (cap : Q) :
  cap = (k # b)%Q ->
  (cap <= inject_Z (Z.of_nat n) * (1 # a))%Q <-> (k * Z.pos a <= Z.of_nat n * Z.pos b)%Z.
Proof.
  intros ->. unfold Qle, Qmult, inject_Z. simpl. lia.
Qed.

Lemma coverage_value (content : string) (V : list string) :
  V <> [] ->
  Validator._check_vocabulary_coverage content V
  = py_div
      (length (List.filter
                 (fun word => Re.search_word (PyStr.lower word) (PyStr.lower content))
                 V))
      (length V).
Proof.
  intros HV. unfold Validator._check_vocabulary_coverage.
  destruct V as [|w V]; [congruence|]. cbv zeta. rewrite coverage_loop. reflexivity.
Qed.

(** * Further properties of the validator *)

(** X1. The readability scorer divides three times and never raises:
    it returns a score between 0 and 1 for every text, 0 for a text
    without a sentence; when there are sentences every one of them has
    a word, so that the guard on a total of zero words is never taken. *)
Theorem readability_never_raises (content : string) :
  (exists r, Validator._check_readability content = Ok r /\ (0 <= r <= 1)%Q) /\
  (Validator.sentences_of content = [] ->
   Validator._check_readability content = Ok 0%Q) /\
  length (Validator.sentences_of content)
  <= fst (fold_left Validator.sentence_step (Validator.sentences_of content)
            (0, (0, 0))).
Proof.
  split; [apply readability_returns|]. split.
  - intros He. unfold Validator._check_readability. rewrite He. reflexivity.
  - apply (sentence_step_total _ (0, (0, 0))), sentences_ok.
Qed.

(** X2. The sentences that the scorers work on are never empty, are
    trimmed, contain none of the terminators and hold at least one
    word. *)
Theorem sentences_well_formed (content : string) :
  Forall
    (fun s => s <> "" /\ PyStr.strip s = s /\ has_punct s = false /\
              PyStr.split s <> [])
    (Validator.sentences_of content).
Proof. exact (sentences_ok content). Qed.

(** X3. The syllable estimate does not depend on the case of the token
    nor on the white space around it, and never exceeds the larger of 1
    and the number of characters. *)
Theorem count_syllables_normalises (token : string) :
  Validator._count_syllables (PyStr.strip token) = Validator._count_syllables token /\
  Validator._count_syllables (PyStr.lower token) = Validator._count_syllables token /\
  Validator._count_syllables token <= Nat.max 1 (String.length token).
Proof.
  split; [|split].
  - rewrite !count_syllables_trimmed, strip_idem. reflexivity.
  - rewrite !count_syllables_trimmed, <- lower_strip, truthy_lower.
    destruct (PyStr.truthy (PyStr.strip token)); [|reflexivity].
    unfold Spec.syllable_estimate. rewrite lower_idem. reflexivity.
  - unfold Validator._count_syllables. cbv zeta.
    destruct (negb _); [lia|].
    rewrite syllable_loop_spec.
    set (w := Re.sub_suffix (PyStr.strip (PyStr.lower token))).
    pose proof (transitions_le_length (list_ascii_of_string w)) as Ht.
    rewrite length_list_ascii in Ht.
    pose proof (length_sub_suffix (PyStr.strip (PyStr.lower token))) as Hs.
    pose proof (length_strip (PyStr.lower token)) as Hl.
    rewrite length_lower in Hl. fold w in Hs.
    destruct (_ && _); lia.
Qed.

(** X4. The coverage does not depend on the case of the text or of the
    words. *)
Theorem coverage_case_insensitive (content : string) (vocabulary : list string) :
  Validator._check_vocabulary_coverage (PyStr.lower content)
    (List.map PyStr.lower vocabulary)
  = Validator._check_vocabulary_coverage content vocabulary.
Proof.
  destruct vocabulary as [|w V]; [reflexivity|].
  rewrite !coverage_value by discriminate.
  rewrite lower_idem, filter_map_lower, !length_map. reflexivity.
Qed.

(** X5. The coverage does not depend on the order of the vocabulary. *)
Theorem coverage_permutation (content : string) (V V' : list string) :
  V ≡ₚ V' ->
  Validator._check_vocabulary_coverage content V
  = Validator._check_vocabulary_coverage content V'.
Proof.
  intros HV. destruct V as [|w l], V' as [|w' l'].
  - reflexivity.
  - apply Permutation_nil in HV. discriminate HV.
  - symmetry in HV. apply Permutation_nil in HV. discriminate HV.
  - rewrite !coverage_value by discriminate.
    rewrite (filter_length_permutation _ _ _ HV), (Permutation_length HV).
    reflexivity.
Qed.

Lemma coverage_permutation_witness :
  Validator._check_vocabulary_coverage "to explore and discover"
    ["explore"; "adventure"]
  = Validator._check_vocabulary_coverage "to explore and discover"
      ["adventure"; "explore"].
Proof. apply coverage_permutation. apply perm_swap. Defined.

Lemma indicator_count_le (indicators : list string) (content_lower : string) :
  Validator.indicator_count indicators content_lower <= length indicators.
Proof.
  unfold Validator.indicator_count.
  rewrite (fold_count (fun word => PyStr.contains word content_lower)). simpl.
  apply filter_length_le.
Qed.

Lemma coherence_of_counts_full (t p c : nat) :
  (Spec.coherence_of_counts t p c == 1)%Q <-> 4 <= t /\ 8 <= p /\ 5 <= c.
Proof.
  unfold Spec.coherence_of_counts.
  set (x1 := (inject_Z (Z.of_nat t) * 0.05)%Q).
  set (x2 := (inject_Z (Z.of_nat p) * 0.02)%Q).
  set (x3 := (inject_Z (Z.of_nat c) * 0.03)%Q).
  assert (H1 : (0.2 <= x1)%Q <-> 4 <= t)
    by (unfold x1, Qle, Qmult, inject_Z; simpl; lia).
  assert (H2 : (0.15 <= x2)%Q <-> 8 <= p)
    by (unfold x2, Qle, Qmult, inject_Z; simpl; lia).
  assert (H3 : (0.15 <= x3)%Q <-> 5 <= c)
    by (unfold x3, Qle, Qmult, inject_Z; simpl; lia).
  rewrite <- H1, <- H2, <- H3. clearbody x1 x2 x3. clear H1 H2 H3.
  rewrite (Qmin_cap 1).
  pose proof (Q.le_min_l 0.2 x1). pose proof (Q.le_min_r 0.2 x1).
  pose proof (Q.le_min_l 0.15 x2). pose proof (Q.le_min_r 0.15 x2).
  pose proof (Q.le_min_l 0.15 x3). pose proof (Q.le_min_r 0.15 x3).
  split.
  - intros Hsum. repeat split; lra.
  - intros (G1 & G2 & G3).
    apply (Qmin_cap 0.2) in G1. apply (Qmin_cap 0.15) in G2, G3. lra.
Qed.

(** X6. The coherence score is between 0.3 and 1; with three sentences
    or more it is at least 0.5, and it is 1 exactly when at least four
    transition words, all eight pronouns and at least five connectors
    are present. *)
Theorem coherence_bounds (content : string) :
  (0.3 <= Validator._check_coherence content <= 1)%Q /\
  (3 <= length (Validator.sentences_of content) ->
   (0.5 <= Validator._check_coherence content)%Q /\
   ((Validator._check_coherence content == 1)%Q <->
    4 <= Validator.indicator_count Validator.transitions (PyStr.lower content) /\
    Validator.indicator_count Validator.pronouns (PyStr.lower content) = 8 /\
    5 <= Validator.indicator_count Validator.connectors (PyStr.lower content))).
Proof.
  rewrite coherence_cases.
  set (t := Validator.indicator_count Validator.transitions (PyStr.lower content)).
  set (p := Validator.indicator_count Validator.pronouns (PyStr.lower content)).
  set (c := Validator.indicator_count Validator.connectors (PyStr.lower content)).
  pose proof (coherence_of_counts_range t p c) as Hr.
  split.
  - destruct (_ <? _)%nat; lra.
  - intros Hlen. apply Nat.ltb_ge in Hlen. rewrite Hlen.
    split; [lra|]. rewrite coherence_of_counts_full.
    pose proof (indicator_count_le Validator.pronouns (PyStr.lower content)) as Hp.
    fold p in Hp. simpl in Hp. lia.
Qed.




(** X8. For a text with a sentence the grammar score is the share of
    the sentences that start with a capital, times 0.8 without any
    period, times 0.9 when a terminator is directly followed by a
    letter, times 0.8 when there are more than 30 words per sentence. *)
Theorem grammar_score_product (content : string) :
  Validator.sentences_of content <> [] ->
  exists g,
    Validator._check_basic_grammar content = Ok g /\
    (g == grammar_product content)%Q /\
    (PyStr.contains "." content = false -> g <= 0.8)%Q /\
    (Re.search_punct_letter content = true -> g <= 0.9)%Q.
Proof.
  intros Hne. unfold Validator._check_basic_grammar, grammar_product. cbv zeta.
  rewrite sentences_of_length.
  assert (Hlen : length (List.filter Validator.nonblank (Re.split_punct content)) <> 0).
  { rewrite <- sentences_of_length. destruct (Validator.sentences_of content);
      [congruence | discriminate]. }
  destruct (split_from_cons false content) as [frag [rest Hsplit]].
  unfold Re.split_punct in *. rewrite Hsplit in *.
  rewrite !py_div_ok by exact Hlen.
  pose proof (capital_loop (frag :: rest)) as Hcap.
  assert (Hfold : fold_left Validator.capital_step (frag :: rest) 0
                  = length (List.filter
                              (fun s => Validator.starts_upper (PyStr.strip s))
                              (frag :: rest))).
  { unfold Validator.capital_step.
    exact (fold_count (fun s => Validator.starts_upper (PyStr.strip s))
             (frag :: rest) 0). }
  rewrite Hfold in *.
  set (ratio := Z.of_nat (length (List.filter
                                    (fun s => Validator.starts_upper (PyStr.strip s))
                                    (frag :: rest)))
                # Pos.of_nat (length (List.filter Validator.nonblank (frag :: rest)))).
  assert (Hr : (0 <= ratio <= 1)%Q) by (apply ratio_bounds; assumption).
  clearbody ratio. cbn [mbind result_bind].
  destruct (PyStr.split content) as [|w ws] eqn:Hw; cbn [mbind result_bind negb].
  - assert (Hz : Qltb 30 (Z.of_nat (length (@nil string))
                          # Pos.of_nat (length (List.filter Validator.nonblank
                                                  (frag :: rest)))) = false)
      by reflexivity.
    rewrite Hz. eexists. split; [reflexivity|].
    destruct (PyStr.contains "." content), (Re.search_punct_letter content);
      cbn [negb]; (split; [rewrite Q.max_r by lra; ring|]);
      (split; intros E; try discriminate E; apply Q.max_lub; lra).
  - eexists. split; [reflexivity|].
    destruct (PyStr.contains "." content), (Re.search_punct_letter content),
             (Qltb 30 _);
      cbn [negb]; (split; [rewrite Q.max_r by lra; ring|]);
      (split; intros E; try discriminate E; apply Q.max_lub; lra).
Qed.

Lemma grammar_score_product_witness :
  exists g,
    Validator._check_basic_grammar "Hello there.is it you" = Ok g /\
    (g == grammar_product "Hello there.is it you")%Q /\
    (PyStr.contains "." "Hello there.is it you" = false -> g <= 0.8)%Q /\
    (Re.search_punct_letter "Hello there.is it you" = true -> g <= 0.9)%Q.
Proof. apply grammar_score_product. discriminate. Defined.

Example grammar_product_example :
  (grammar_product "Hello there.is it you" == 0.45)%Q.
Proof. reflexivity. Qed.

Lemma filter_all {A : Type} (f : A -> bool) (l : list A) :
  length (List.filter f l) = length l <-> forall x, In x l -> f x = true.
Proof.
  induction l as [|x l IH]; simpl; [intuition|].
  pose proof (filter_length_le f l) as Hle.
  destruct (f x) eqn:E; simpl.
  - split.
    + intros H y [<- | Hy]; [exact E|]. apply IH; [lia | exact Hy].
    + intros H. f_equal. apply IH. intros y Hy. apply H. right. exact Hy.
  - split; [lia|]. intros H. specialize (H x (or_introl eq_refl)). congruence.
Qed.

Lemma filter_none {A : Type} (f : A -> bool) (l : list A) :
  length (List.filter f l) = 0 <-> forall x, In x l -> f x = false.
Proof.
  induction l as [|x l IH]; simpl; [intuition|].
  destruct (f x) eqn:E; simpl.
  - split; [lia|]. intros H. specialize (H x (or_introl eq_refl)). congruence.
  - rewrite IH. split.
    + intros H y [<- | Hy]; [exact E | apply H, Hy].
    + intros H y Hy. apply H. right. exact Hy.
Qed.

(** X21. For a non-empty vocabulary the coverage is 1 exactly when
    every word is found in the text, and 0 exactly when none is. *)
Theorem coverage_extremes (content : string) (vocabulary : list string) :
  match vocabulary with
  | [] => True
  | _ :: _ =>
      exists q,
        Validator._check_vocabulary_coverage content vocabulary = Ok q /\
        ((q == 1)%Q <->
         forall word, In word vocabulary -> Spec.found_in content word) /\
        ((q == 0)%Q <->
         forall word, In word vocabulary -> ~ Spec.found_in content word)
  end.
Proof.
  destruct vocabulary as [|w V]; [exact I|].
  set (l := w :: V). assert (Hl : length l <> 0) by discriminate.
  rewrite coverage_value by discriminate. rewrite py_div_ok by exact Hl.
  eexists. split; [reflexivity|].
  set (f := fun word => Re.search_word (PyStr.lower word) (PyStr.lower content)).
  assert (Hpos : Z.pos (Pos.of_nat (length l)) = Z.of_nat (length l)).
  { destruct (length l); [congruence|]. rewrite <- Pos.of_nat_succ. lia. }
  split.
  - transitivity (length (List.filter f l) = length l).
    + unfold Qeq. cbn [Qnum Qden]. rewrite Hpos. lia.
    + rewrite filter_all. split; intros H word Hin.
      * apply search_word_iff, H, Hin.
      * apply search_word_iff, H, Hin.
  - transitivity (length (List.filter f l) = 0).
    + unfold Qeq. cbn [Qnum Qden]. lia.
    + rewrite filter_none. split; intros H word Hin.
      * intros Hf. apply search_word_iff in Hf. fold (f word) in Hf.
        rewrite (H word Hin) in Hf. discriminate Hf.
      * destruct (f word) eqn:E; [|reflexivity].
        exfalso. apply (H word Hin). apply search_word_iff. exact E.
Qed.

(** * Further facts about the cache and the handler *)

Lemma hex_digit_ok (d : Z) : (0 <= d < 16)%Z -> is_hex (MD5.hex_digit d) = true.
Proof.
  intros Hd.
  assert (Hall : forallb (fun n => is_hex (MD5.hex_digit (Z.of_nat n))) (seq 0 16) = true)
    by reflexivity.
  rewrite forallb_forall in Hall.
  rewrite <- (Z2Nat.id d) by lia. apply Hall. apply in_seq. lia.
Qed.

Lemma concat_empty_cons (x : string) (xs : list string) :
  String.concat "" (x :: xs) = x ++ String.concat "" xs.
Proof.
  destruct xs as [|y ys]; simpl; [rewrite append_nil_r|]; reflexivity.
Qed.

Lemma list_ascii_append (a b : string) :
  list_ascii_of_string (a ++ b)
  = (list_ascii_of_string a ++ list_ascii_of_string b)%list.
Proof. induction a as [|c a IH]; simpl; congruence. Qed.

Lemma hex_bytes_format (l : list Z) :
  Forall (fun b => 0 <= b < 256)%Z l ->
  String.length (String.concat "" (List.map MD5.hex_byte l)) = 2 * length l /\
  forallb is_hex (list_ascii_of_string (String.concat "" (List.map MD5.hex_byte l)))
  = true.
Proof.
  induction 1 as [|b l Hb Hl [IH1 IH2]]; [split; reflexivity|].
  cbn [List.map]. rewrite concat_empty_cons. split.
  - rewrite length_append, IH1. simpl. lia.
  - rewrite list_ascii_append, forallb_app, IH2. unfold MD5.hex_byte.
    cbn [list_ascii_of_string forallb].
    rewrite !hex_digit_ok; [reflexivity|..].
    + apply Z.mod_pos_bound. lia.
    + split; [apply Z.div_pos; lia | apply Z.div_lt_upper_bound; lia].
Qed.

Lemma le_bytes_range (count : nat) (x : Z) :
  Forall (fun b => 0 <= b < 256)%Z (MD5.le_bytes count x).
Proof.
  unfold MD5.le_bytes. apply List.Forall_forall. intros b Hb.
  apply in_map_iff in Hb as (i & <- & _). apply Z.mod_pos_bound. lia.
Qed.

(** X9. A cache key is a string of exactly 32 lower-case hexadecimal
    digits, whatever the request. *)
Theorem cache_key_format (vocabulary : list string) (difficulty : Z)
  (story_type : string) :
  String.length (_generate_cache_key vocabulary difficulty story_type) = 32 /\
  forallb is_hex
    (list_ascii_of_string (_generate_cache_key vocabulary difficulty story_type))
  = true.
Proof.
  unfold _generate_cache_key, MD5.hexdigest, MD5.hex_of_digest.
  destruct (hex_bytes_format _ (le_bytes_range 16
              (MD5.digest_int (encode (key_string vocabulary difficulty story_type)))))
    as [H1 H2].
  split; [|exact H2]. rewrite H1. unfold MD5.le_bytes.
  rewrite length_map, length_seq. reflexivity.
Qed.



Lemma generate_story_hit (env : Env) (request : Service.GenerateStoryRequest)
  (store : gmap string CacheEntry) (tr : list event) (entry : CacheEntry) :
  store !! ("story:" ++ key_of request) = Some entry ->
  Generator.generate_story env (Service.req_vocabulary request)
    (Service.req_difficulty request) (Service.req_story_type request)
    (Service.req_max_length request) {| redis_client := Some store; trace := tr |}
  = (Ok (payload entry),
     {| redis_client := Some store;
        trace := (tr ++ [CacheRead (key_of request) true])%list |}).
Proof.
  intros Hhit. unfold Generator.generate_story, _get_cached_story. cbv zeta.
  cbn [redis_client]. fold (key_of request). rewrite Hhit. reflexivity.
Qed.

Lemma generate_story_failure (env : Env) (request : Service.GenerateStoryRequest)
  (store : gmap string CacheEntry) (tr : list event) (e : exn) :
  store !! ("story:" ++ key_of request) = None ->
  chat_completion env (prompt_of request) = Raise e ->
  Generator.generate_story env (Service.req_vocabulary request)
    (Service.req_difficulty request) (Service.req_story_type request)
    (Service.req_max_length request) {| redis_client := Some store; trace := tr |}
  = (Raise (GenerationFailed ("Story generation failed: " ++ exn_text e)),
     {| redis_client := Some store;
        trace := (tr ++ [CacheRead (key_of request) false;
                         ProviderCall (prompt_of request)])%list |}).
Proof.
  intros Hmiss Hllm. unfold Generator.generate_story, _get_cached_story. cbv zeta.
  cbn [redis_client]. fold (key_of request). rewrite Hmiss.
  fold (prompt_of request). cbn [log redis_client trace]. rewrite Hllm.
  unfold log. cbn [redis_client trace]. rewrite <- app_assoc. reflexivity.
Qed.

(** X11. On a hit the cached story is returned as it is: the provider
    is not called, even one that would fail, and the store is left
    untouched. *)
Theorem cache_hit_skips_provider (env : Env) (request : Service.GenerateStoryRequest)
  (store : gmap string CacheEntry) (tr : list event) (entry : CacheEntry) :
  store !! ("story:" ++ key_of request) = Some entry ->
  let run :=
    Generator.generate_story env (Service.req_vocabulary request)
      (Service.req_difficulty request) (Service.req_story_type request)
      (Service.req_max_length request)
      {| redis_client := Some store; trace := tr |} in
  fst run = Ok (payload entry) /\
  redis_client (snd run) = Some store /\
  trace (snd run) = (tr ++ [CacheRead (key_of request) true])%list.
Proof.
  intros Hhit. cbv zeta. rewrite (generate_story_hit env request store tr entry Hhit).
  auto.
Qed.

Lemma cache_hit_skips_provider_witness :
  let run :=
    Generator.generate_story failing_env (Service.req_vocabulary demo_request)
      (Service.req_difficulty demo_request) (Service.req_story_type demo_request)
      (Service.req_max_length demo_request)
      {| redis_client := Some demo_store; trace := [] |} in
  fst run = Ok (story_of demo_env demo_request "short text") /\
  redis_client (snd run) = Some demo_store /\
  trace (snd run) = [CacheRead (key_of demo_request) true].
Proof.
  apply (cache_hit_skips_provider failing_env demo_request demo_store []
           {| payload := story_of demo_env demo_request "short text";
              expire_hours := 24 |}).
  apply lookup_singleton_eq.
Defined.



(** X13. When the provider fails on a miss, nothing is cached and the
    text is never validated: the generator raises "Story generation
    failed: ..." and the handler answers 500 with that message after
    "Internal server error: ". *)
Theorem provider_failure_reported (env : Env)
  (request : Service.GenerateStoryRequest)
  (store : gmap string CacheEntry) (tr : list event) (e : exn) :
  Service.req_vocabulary request <> [] ->
  length (Service.req_vocabulary request) <= 20 ->
  store !! ("story:" ++ key_of request) = None ->
  chat_completion env (prompt_of request) = Raise e ->
  Service.generate_story env request {| redis_client := Some store; trace := tr |}
  = (Service.HTTPException 500
       ("Internal server error: " ++ "Story generation failed: " ++ exn_text e),
     {| redis_client := Some store;
        trace := (tr ++ [CacheRead (key_of request) false;
                         ProviderCall (prompt_of request)])%list |}).
Proof.
  intros Hne Hlen Hmiss Hllm. unfold Service.generate_story.
  destruct (Service.req_vocabulary request) as [|w V] eqn:HV; [congruence|].
  rewrite <- HV in *.
  assert (Hle : (20 <? length (Service.req_vocabulary request))%nat = false)
    by (apply Nat.ltb_ge; exact Hlen).
  rewrite Hle, (generate_story_failure env request store tr e Hmiss Hllm).
  reflexivity.
Qed.

Lemma provider_failure_reported_witness :
  Service.generate_story failing_env demo_request
    {| redis_client := Some ∅; trace := [] |}
  = (Service.HTTPException 500
       ("Internal server error: " ++ "Story generation failed: "
        ++ exn_text (ProviderError "timeout")),
     {| redis_client := Some ∅;
        trace := ([] ++ [CacheRead (key_of demo_request) false;
                         ProviderCall (prompt_of demo_request)])%list |}).
Proof.
  apply (provider_failure_reported failing_env demo_request ∅ []
           (ProviderError "timeout"));
    [discriminate | simpl; lia | reflexivity | reflexivity].
Defined.



(** X14. The handler answers 400 exactly when the vocabulary is empty
    or has more than 20 words, and then nothing else happens: no cache
    access, no call to the provider. *)
Theorem bad_request_exactly (env : Env) (request : Service.GenerateStoryRequest)
  (w : World) :
  ((exists detail,
      fst (Service.generate_story env request w) = Service.HTTPException 400 detail)
   <-> Service.req_vocabulary request = [] \/
       20 < length (Service.req_vocabulary request)) /\
  (Service.req_vocabulary request = [] \/
   20 < length (Service.req_vocabulary request) ->
   snd (Service.generate_story env request w) = w).
Proof.
  unfold Service.generate_story.
  destruct (Service.req_vocabulary request) as [|x V] eqn:HV.
  { split; [|reflexivity]. split; [auto|]. intros _. eexists. reflexivity. }
  rewrite <- HV.
  destruct (Nat.ltb_spec 20 (length (Service.req_vocabulary request))) as [Hlt|Hle].
  { split; [|reflexivity]. split; [auto|]. intros _. eexists. reflexivity. }
  assert (Hno : ~ (Service.req_vocabulary request = [] \/
                   20 < length (Service.req_vocabulary request))).
  { rewrite HV. intros [E|E]; [discriminate E | rewrite HV in Hle; lia]. }
  split; [|intros H; contradiction].
  split; [|intros H; contradiction].
  intros [detail E]. exfalso.
  destruct (Generator.generate_story env _ _ _ _ w) as [[story|e] w'];
    [|discriminate E].
  destruct (Validator.validate _ _) as [is_valid quality].
  destruct is_valid; discriminate E.
Qed.



(** X16. The speech provider is optional: whatever it does, the state
    after the request is the same and so is the answer but for its
    audio address; when it raises, a successful answer carries no
    address. *)
Theorem audio_is_optional (env : Env) (audio : string -> result (option string))
  (request : Service.GenerateStoryRequest) (w : World) :
  snd (Service.generate_story (with_audio env audio) request w)
  = snd (Service.generate_story env request w) /\
  without_audio (fst (Service.generate_story (with_audio env audio) request w))
  = without_audio (fst (Service.generate_story env request w)) /\
  ((forall text, exists e, audio text = Raise e) ->
   fst (Service.generate_story (with_audio env audio) request w)
   = without_audio (fst (Service.generate_story env request w))).
Proof.
  unfold Service.generate_story.
  destruct (Service.req_vocabulary request) as [|x V] eqn:HV; [auto|].
  rewrite <- HV.
  destruct (20 <? length (Service.req_vocabulary request))%nat; [auto|].
  change (Generator.generate_story (with_audio env audio))
    with (Generator.generate_story env).
  destruct (Generator.generate_story env _ _ _ _ w) as [[story|e] w']; [|auto].
  destruct (Validator.validate _ _) as [is_valid quality].
  destruct is_valid; cbn [negb fst snd without_audio]; [|auto].
  repeat split. intros Hfail. cbn [generate_audio with_audio].
  destruct (Hfail (content story)) as [e ->]. reflexivity.
Qed.

(** X17. Without a cache client every request of a valid size calls the
    provider, and the cache is neither read nor written: the log of the
    request is the call, followed by the validation when the provider
    answered. *)
Theorem no_client_always_generates (env : Env)
  (request : Service.GenerateStoryRequest) (tr : list event) :
  Service.req_vocabulary request <> [] ->
  length (Service.req_vocabulary request) <= 20 ->
  let run :=
    Service.generate_story env request {| redis_client := None; trace := tr |} in
  redis_client (snd run) = None /\
  (trace (snd run) = (tr ++ [ProviderCall (prompt_of request)])%list \/
   exists text accepted,
     trace (snd run)
     = (tr ++ [ProviderCall (prompt_of request); Validation text accepted])%list).
Proof.
  intros Hne Hlen. cbv zeta. unfold Service.generate_story.
  destruct (Service.req_vocabulary request) as [|x V] eqn:HV; [congruence|].
  rewrite <- HV in *.
  assert (Hle : (20 <? length (Service.req_vocabulary request))%nat = false)
    by (apply Nat.ltb_ge; exact Hlen).
  rewrite Hle.
  unfold Generator.generate_story, _get_cached_story. cbv zeta.
  cbn [redis_client log trace]. fold (prompt_of request).
  destruct (chat_completion env (prompt_of request)) as [response | e].
  - unfold _cache_story. cbn [redis_client log trace].
    destruct (Validator.validate _ _) as [is_valid quality].
    unfold log. destruct is_valid; cbn [negb redis_client trace fst snd];
      (split; [reflexivity|]); right; rewrite <- app_assoc; eauto.
  - cbn [redis_client trace snd]. auto.
Qed.

Lemma no_client_always_generates_witness :
  let run :=
    Service.generate_story demo_env demo_request initial_world in
  redis_client (snd run) = None /\
  (trace (snd run) = ([] ++ [ProviderCall (prompt_of demo_request)])%list \/
   exists text accepted,
     trace (snd run)
     = ([] ++ [ProviderCall (prompt_of demo_request);
               Validation text accepted])%list).
Proof.
  apply (no_client_always_generates demo_env demo_request []);
    [discriminate | simpl; lia].
Defined.




Lemma whole_word_occurs (w t : string) : Spec.whole_word_in w t -> Spec.occurs_in w t.
Proof. intros (pre & post & E & _). exists pre, post. exact E. Qed.

(** X19. The story made on a miss: its content is the answer of the
    provider, trimmed; its word count is the number of words of the
    content; its key is the key of the request; the words it reports as
    used are words of the request, and among them is every word that
    the validator will find in the content. *)
Theorem fresh_story_shape (env : Env) (request : Service.GenerateStoryRequest)
  (w : World) (response : string) :
  match redis_client w with
  | Some store => store !! ("story:" ++ key_of request) = None
  | None => True
  end ->
  chat_completion env (prompt_of request) = Ok response ->
  exists story,
    fst (Generator.generate_story env (Service.req_vocabulary request)
           (Service.req_difficulty request) (Service.req_story_type request)
           (Service.req_max_length request) w)
    = Ok story /\
    content story = PyStr.strip response /\
    PyStr.strip (content story) = content story /\
    word_count story = length (PyStr.split (content story)) /\
    cache_key story = key_of request /\
    (forall word, In word (vocabulary_used story) ->
                  In word (Service.req_vocabulary request)) /\
    (forall word, In word (Service.req_vocabulary request) ->
                  Spec.found_in (content story) word ->
                  In word (vocabulary_used story)).
Proof.
  intros Hmiss Hllm. exists (story_of env request response).
  split.
  - destruct w as [[store|] tr]; cbn [redis_client] in Hmiss.
    + rewrite (generate_story_miss env request store tr response Hmiss Hllm).
      reflexivity.
    + unfold Generator.generate_story, _get_cached_story. cbv zeta.
      cbn [redis_client log trace]. fold (prompt_of request). rewrite Hllm.
      reflexivity.
  - unfold story_of. cbv zeta. cbn [content word_count cache_key vocabulary_used].
    repeat split.
    + apply strip_idem.
    + intros word H. apply filter_In in H as [H _]. exact H.
    + intros word Hin Hfound. apply filter_In. split; [exact Hin|].
      apply contains_iff, whole_word_occurs. exact Hfound.
Qed.

Lemma fresh_story_shape_witness :
  exists story,
    fst (Generator.generate_story example_env (Service.req_vocabulary example_request)
           (Service.req_difficulty example_request)
           (Service.req_story_type example_request)
           (Service.req_max_length example_request) initial_world)
    = Ok story /\
    content story = PyStr.strip example_text /\
    PyStr.strip (content story) = content story /\
    word_count story = length (PyStr.split (content story)) /\
    cache_key story = key_of example_request /\
    (forall word, In word (vocabulary_used story) ->
                  In word (Service.req_vocabulary example_request)) /\
    (forall word, In word (Service.req_vocabulary example_request) ->
                  Spec.found_in (content story) word ->
                  In word (vocabulary_used story)).
Proof.
  apply (fresh_story_shape example_env example_request initial_world example_text);
    [exact I | reflexivity].
Defined.

(** Occurrences in a concatenation. *)
Lemma occurs_in_right (w a b : string) : Spec.occurs_in w b -> Spec.occurs_in w (a ++ b).
Proof.
  intros (pre & post & ->). exists (a ++ pre), post. rewrite append_assoc. reflexivity.
Qed.

Lemma occurs_in_left (w a b : string) : Spec.occurs_in w a -> Spec.occurs_in w (a ++ b).
Proof.
  intros (pre & post & ->). exists pre, (post ++ b). rewrite !append_assoc. reflexivity.
Qed.

Lemma occurs_in_self (w : string) : Spec.occurs_in w w.
Proof. exists "", "". simpl. rewrite append_nil_r. reflexivity. Qed.

Lemma occurs_in_join (sep w : string) (l : list string) :
  In w l -> Spec.occurs_in w (PyStr.join sep l).
Proof.
  induction l as [|x l IH]; [intros []|].
  intros [<- | Hin].
  - destruct l as [|y l]; [apply occurs_in_self|].
    cbn [PyStr.join]. apply occurs_in_left, occurs_in_self.
  - destruct l as [|y l]; [destruct Hin|].
    cbn [PyStr.join]. apply occurs_in_right, occurs_in_right, IH, Hin.
Qed.

(** Looking for the list of words in a prompt. *)
Ltac find_word H :=
  first [ apply occurs_in_left; apply occurs_in_join; exact H
        | apply occurs_in_right; find_word H ].

(** X20. The prompt names every word of the vocabulary; a difficulty
    outside 1..5 is treated as 3 ("intermediate") and an unknown type of
    story as "general". *)
Theorem prompt_fallbacks (vocabulary : list string) (difficulty : Z)
  (story_type : string) (max_length : Z) :
  (forall word, In word vocabulary ->
     Spec.occurs_in word
       (_build_story_prompt vocabulary difficulty story_type max_length)) /\
  (~ (1 <= difficulty <= 5)%Z ->
   _build_story_prompt vocabulary difficulty story_type max_length
   = _build_story_prompt vocabulary 3 story_type max_length) /\
  (story_templates story_type = None ->
   _build_story_prompt vocabulary difficulty story_type max_length
   = _build_story_prompt vocabulary difficulty "general" max_length).
Proof.
  split; [|split].
  - intros word Hin. unfold _build_story_prompt. cbv zeta. find_word Hin.
  - intros Hd. unfold _build_story_prompt.
    assert (E : difficulty_levels difficulty = None).
    { unfold difficulty_levels.
      repeat match goal with
             | |- context [(?a =? ?b)%Z] => destruct (Z.eqb_spec a b); [lia|]
             end.
      reflexivity. }
    rewrite E. reflexivity.
  - intros E. unfold _build_story_prompt. rewrite E. reflexivity.
Qed.
